(** * pycomm3.cip_driver: a shallow embedding of the CIP driver

    The development follows [src/pycomm3/cip_driver.py]: the path parser
    [parse_connection_path], the sequence counter built in [__init__], the
    fallback wrapper [with_forward_open], and the methods of [CIPDriver]
    ([open], [close], [_forward_open], [_forward_close], [generic_message],
    [send], ...), the context manager, and the class methods
    [list_identity] and [discover].

    Python values are modelled by small inductive types, exceptions by an
    outcome type, and the mutable driver object together with the socket it
    talks to by explicit state passing: a raised exception keeps every
    mutation made before it, as in Python. *)

From Stdlib Require Import ZArith List String Ascii Bool Lia.
From Stdlib Require Import Strings.Byte.
Import ListNotations.

Local Open Scope string_scope.
Local Open Scope list_scope.

(** ** Python values and exceptions *)

Definition bytes := list byte.

(** The values that flow through the driver untouched. *)
Inductive pyvalue :=
| PyNone
| PyBool (b : bool)
| PyInt (z : Z)
| PyStr (s : string)
| PyBytes (b : bytes).

(** The exception classes the driver raises or lets through.  The optional
    argument of the three pycomm3 classes is the [raise ... from err]
    cause. *)
#[warnings="-register-all"]
Inductive exn :=
| CommError (msg : string) (cause : option exn)
| ResponseError (msg : string) (cause : option exn)
| RequestError (msg : string) (cause : option exn)
| ValueError (msg : string)
| TypeError (msg : string)
| AttributeError (msg : string)
| OSError (msg : string).

(** [str(e)] *)
Definition str (e : exn) : string :=
  match e with
  | CommError m _ | ResponseError m _ | RequestError m _
  | ValueError m | TypeError m | AttributeError m | OSError m => m
  end.

Inductive outcome (A : Type) :=
| Return (a : A)
| Raise (e : exn).
Arguments Return {A} a.
Arguments Raise {A} e.

Definition obind {A B} (x : outcome A) (k : A -> outcome B) : outcome B :=
  match x with
  | Return a => k a
  | Raise e => Raise e
  end.

(** ** Strings *)

(** [s.replace(a, b)] for one-character [a] and [b]. *)
Fixpoint replace (a b : ascii) (s : string) : string :=
  match s with
  | EmptyString => EmptyString
  | String c r => String (if Ascii.eqb c a then b else c) (replace a b r)
  end.

(** [s.split(sep)] for a one-character separator: one more piece than
    there are separators, empty pieces kept. *)
Fixpoint split (sep : ascii) (s : string) : list string :=
  match s with
  | EmptyString => [EmptyString]
  | String c r =>
      if Ascii.eqb c sep then EmptyString :: split sep r
      else match split sep r with
           | h :: t => String c h :: t
           | [] => [String c EmptyString]
           end
  end.

(** [sep.join(parts)] *)
Fixpoint join (sep : string) (parts : list string) : string :=
  match parts with
  | [] => EmptyString
  | [p] => p
  | p :: rest => p ++ sep ++ join sep rest
  end.

(** [needle in s] *)
Fixpoint prefixb (p s : string) : bool :=
  match p, s with
  | EmptyString, _ => true
  | String a p', String b s' => Ascii.eqb a b && prefixb p' s'
  | String _ _, EmptyString => false
  end.

Fixpoint contains (needle s : string) : bool :=
  prefixb needle s ||
  match s with
  | EmptyString => false
  | String _ s' => contains needle s'
  end.

(** ** Lists the way the parser slices them *)

(** [l[i:j]] for [0 <= i <= j]. *)
Definition slice {A} (l : list A) (i j : nat) : list A :=
  firstn (j - i) (skipn i l).

(** [range(0, n, 2)] *)
Definition range_step2 (n : nat) : list nat :=
  map (fun k => 2 * k)%nat (seq 0 (Nat.div2 (S n))).

(** [[f(x) for x in l]] where [f] may raise: the first exception ends the
    comprehension. *)
Fixpoint comprehension {A B} (f : A -> outcome B) (l : list A) : outcome (list B) :=
  match l with
  | [] => Return []
  | x :: r => obind (f x) (fun y => obind (comprehension f r) (fun ys => Return (y :: ys)))
  end.

(** ** CIP path segments *)

(** A port or a link is whatever the caller wrote: the parser passes the
    token (a [str]) on, and writes the integer [0] itself for the default
    slot. *)
Inductive atom :=
| AInt (z : Z)
| AStr (s : string).

(** [PortSegment(port, link_address)]: the constructor only stores its two
    arguments; the symbolic names are resolved when a path is encoded. *)
Record PortSegment := mkPortSegment { port : atom; link_address : atom }.

(** ** [repr] of a string

    A string stands for the Python string with the same code points, all
    below 256.  [repr] picks the quote, escapes the backslash, that quote
    and the characters that are not printable, and leaves the rest. *)

Definition double_quote : ascii := ascii_of_nat 34.

Definition hex_digit (n : nat) : ascii :=
  ascii_of_nat (if (n <? 10)%nat then 48 + n else 87 + n).

(** [str.isprintable] of one character below 256. *)
Definition printable (c : ascii) : bool :=
  let n := nat_of_ascii c in
  ((32 <=? n)%nat && (n <=? 126)%nat) || ((161 <=? n)%nat && negb (n =? 173)%nat).

Definition repr_char (quote c : ascii) : string :=
  let n := nat_of_ascii c in
  if Ascii.eqb c "\" then String "\" (String "\" EmptyString)
  else if Ascii.eqb c quote then String "\" (String quote EmptyString)
  else if (n =? 9)%nat then String "\" (String "t" EmptyString)
  else if (n =? 10)%nat then String "\" (String "n" EmptyString)
  else if (n =? 13)%nat then String "\" (String "r" EmptyString)
  else if printable c then String c EmptyString
  else String "\" (String "x" (String (hex_digit (n / 16)) (String (hex_digit (n mod 16))
         EmptyString))).

Fixpoint repr_body (quote : ascii) (s : string) : string :=
  match s with
  | EmptyString => EmptyString
  | String c r => repr_char quote c ++ repr_body quote r
  end.

Fixpoint has (c : ascii) (s : string) : bool :=
  match s with
  | EmptyString => false
  | String x r => Ascii.eqb x c || has c r
  end.

Definition py_repr (s : string) : string :=
  let quote := if has "'" s && negb (has double_quote s) then double_quote else "'"%char in
  String quote (repr_body quote s ++ String quote EmptyString).

(** ** The path parser *)

Section Parser.

(** [ipaddress.ip_address] of the Python standard library, as the parser
    uses it: [true] when the call returns, [false] when it raises
    [ValueError], whose text is the [repr] of the argument followed by
    ' does not appear to be an IPv4 or IPv6 address'. *)
Variable ip_address : string -> bool.

(** [port, link = pair] *)
Definition unpack_pair (pair : list string) : outcome PortSegment :=
  match pair with
  | [p; l] => Return (mkPortSegment (AStr p) (AStr l))
  | [] => Raise (ValueError "not enough values to unpack (expected 2, got 0)")
  | [_] => Raise (ValueError "not enough values to unpack (expected 2, got 1)")
  | _ :: _ :: _ :: _ => Raise (ValueError "too many values to unpack (expected 2)")
  end.

(** The body of the outer [try]. *)
Definition parse_body (path : string) : outcome (string * list PortSegment) :=
  match split "/" path with
  | [] => Raise (ValueError "not enough values to unpack (expected at least 1, got 0)")
  | ip :: segments =>
      obind (if ip_address ip then Return tt
             else Raise (RequestError ("Invalid IP Address: " ++ ip)
                           (Some (ValueError (py_repr ip ++ " does not appear to be an IPv4 or IPv6 address")))))
        (fun _ =>
           obind (match segments with
                  | [] => Return [mkPortSegment (AStr "bp") (AInt 0)]
                  | [s] => Return [mkPortSegment (AStr "bp") (AStr s)]
                  | _ =>
                      let pairs := map (fun i => slice segments i (i + 2))
                                       (range_step2 (List.length segments)) in
                      comprehension unpack_pair pairs
                  end)
             (fun _path => Return (ip, _path)))
  end.

Definition parse_connection_path (path : string) : outcome (string * list PortSegment) :=
  let path := replace "\" "/" path in
  match parse_body path with
  | Return r => Return r
  | Raise err =>
      Raise (RequestError ("Failed to parse connection path: " ++ path) (Some err))
  end.

End Parser.

(** Dotted quads of decimal octets, which [ipaddress.ip_address] accepts
    as IPv4 literals. *)
Definition is_digit (c : ascii) : bool :=
  let n := nat_of_ascii c in (48 <=? n)%nat && (n <=? 57)%nat.

Fixpoint octet_value (acc : nat) (s : string) : option nat :=
  match s with
  | EmptyString => Some acc
  | String c r =>
      if is_digit c then octet_value (10 * acc + (nat_of_ascii c - 48))%nat r
      else None
  end.

Definition octet_ok (s : string) : bool :=
  match s with
  | EmptyString => false
  | String c r =>
      (String.length s <=? 3)%nat &&
      (negb (Ascii.eqb c "0") || String.eqb s "0") &&
      match octet_value 0 s with
      | Some v => (v <=? 255)%nat
      | None => false
      end
  end.

Definition dotted_quad (s : string) : bool :=
  let octets := split "." s in
  (List.length octets =? 4)%nat && forallb octet_ok octets.

(** The IPv6 literals [ipaddress.ip_address] accepts: hextets separated
    by colons, eight of them or fewer around one double colon, the last
    two possibly written as a dotted quad, and possibly a scope after a
    percent sign. *)
Definition is_hex_digit (c : ascii) : bool :=
  let n := nat_of_ascii c in
  is_digit c || ((65 <=? n)%nat && (n <=? 70)%nat) || ((97 <=? n)%nat && (n <=? 102)%nat).

Fixpoint all_chars (p : ascii -> bool) (s : string) : bool :=
  match s with
  | EmptyString => true
  | String c r => p c && all_chars p r
  end.

Definition is_empty (s : string) : bool :=
  match s with
  | EmptyString => true
  | String _ _ => false
  end.

Definition hextet_ok (s : string) : bool :=
  negb (is_empty s) && (String.length s <=? 4)%nat && all_chars is_hex_digit s.

(** The position of the first empty string. *)
Fixpoint first_empty (l : list string) : nat :=
  match l with
  | [] => O
  | s :: r => if is_empty s then O else S (first_empty r)
  end.

(** The parts between the colons; a dotted quad at the end stands for two
    hextets. *)
Definition ipv6_parts (s : string) : option (list string) :=
  let parts := split ":" s in
  if (List.length parts <? 3)%nat then None
  else if has "." (last parts EmptyString) then
    if dotted_quad (last parts EmptyString)
    then Some (removelast parts ++ ["0"; "0"])
    else None
  else Some parts.

Definition ipv6_address (s : string) : bool :=
  match ipv6_parts s with
  | None => false
  | Some parts =>
      let n := List.length parts in
      let middle := slice parts 1 (n - 1) in
      (n <=? 9)%nat &&
      match List.length (filter is_empty middle) with
      | O => (n =? 8)%nat && forallb hextet_ok parts
      | S O =>
          let skip_index := S (first_empty middle) in
          let leading := is_empty (hd EmptyString parts) in
          let trailing := is_empty (last parts EmptyString) in
          let parts_hi := if leading then (skip_index - 1)%nat else skip_index in
          let parts_lo := if trailing then (n - skip_index - 2)%nat
                          else (n - skip_index - 1)%nat in
          (negb leading || (parts_hi =? 0)%nat) &&
          (negb trailing || (parts_lo =? 0)%nat) &&
          (parts_hi + parts_lo <=? 7)%nat &&
          forallb hextet_ok (firstn parts_hi parts) &&
          forallb hextet_ok (skipn (n - parts_lo) parts)
      | _ => false
      end
  end.

(** [s.partition('%')]: the text before the first percent sign, and the
    text after it when there is one. *)
Fixpoint partition_percent (s : string) : string * option string :=
  match s with
  | EmptyString => (EmptyString, None)
  | String c r =>
      if Ascii.eqb c "%" then (EmptyString, Some r)
      else let '(a, b) := partition_percent r in (String c a, b)
  end.

Definition ipv6_literal (s : string) : bool :=
  match partition_percent s with
  | (address, None) => ipv6_address address
  | (address, Some scope) =>
      negb (is_empty scope) && negb (has "%" scope) && ipv6_address address
  end.

(** The validator for worked examples: what [ipaddress.ip_address]
    accepts, an IPv4 or an IPv6 literal. *)
Definition ip_literal (s : string) : bool := dotted_quad s || ipv6_literal s.

(** ** The sequence counter: [itertools.cycle(range(1, 65535))] *)

(** [range(start, stop)]: [count] consecutive integers from [start]. *)
Fixpoint count_from (start : Z) (count : nat) : list Z :=
  match count with
  | O => []
  | S k => start :: count_from (start + 1)%Z k
  end.

Definition py_range (start stop : Z) : list Z :=
  count_from start (Z.to_nat (stop - start)).

(** [itertools.cycle]: the first pass hands out the elements of the
    iterable and saves them; every later pass replays the saved list. *)
Record cycle := mkCycle { pending : list Z; saved : list Z; first_pass : bool }.

Definition cycle_of (iterable : list Z) : cycle := mkCycle iterable [] true.

(** [next(c)]; [None] is [StopIteration], which only an empty iterable
    gives. *)
Definition next (c : cycle) : option Z * cycle :=
  match pending c with
  | x :: r =>
      (Some x, mkCycle r (if first_pass c then saved c ++ [x] else saved c) (first_pass c))
  | [] =>
      match saved c with
      | [] => (None, mkCycle [] [] false)
      | x :: r => (Some x, mkCycle r (saved c) false)
      end
  end.

(** The value of the [n]-th call of [next], counting from 0. *)
Fixpoint draw (n : nat) (c : cycle) : option Z :=
  match n with
  | O => fst (next c)
  | S k => draw k (snd (next c))
  end.

(** The values of the first [n] calls. *)
Fixpoint draws (n : nat) (c : cycle) : list (option Z) :=
  match n with
  | O => []
  | S k => fst (next c) :: draws k (snd (next c))
  end.

(** ** Fixed-width little-endian encoders *)

Definition byte_of_Z (z : Z) : byte :=
  match Byte.of_N (Z.to_N (z mod 256)) with
  | Some b => b
  | None => x00
  end.

Fixpoint le_bytes (width : nat) (z : Z) : bytes :=
  match width with
  | O => []
  | S k => byte_of_Z z :: le_bytes k (Z.shiftr z 8)
  end.

Fixpoint le_value (b : bytes) : Z :=
  match b with
  | [] => 0
  | x :: r => (Z.of_N (Byte.to_N x) + 256 * le_value r)%Z
  end.

(** Modelled from the spec: [UINT.encode] and [UDINT.encode] of the
    missing [cip] module, which the spec describes as little-endian fields
    of 16 and 32 bits; a value that does not fit is refused. *)
Definition UINT_encode (v : Z) : outcome bytes :=
  if ((0 <=? v) && (v <? 2 ^ 16))%Z then Return (le_bytes 2 v)
  else Raise (ValueError "Error packing UINT").

Definition UDINT_encode (v : Z) : outcome bytes :=
  if ((0 <=? v) && (v <? 2 ^ 32))%Z then Return (le_bytes 4 v)
  else Raise (ValueError "Error packing UDINT").

(** ** Requests, responses and results as the driver sees them *)

Inductive CIPSegment :=
| Port (p : PortSegment)
| Logical (logical_value : Z) (logical_type : string).

(** The [route_path] argument of [generic_message]. *)
Inductive route_spec :=
| RouteBool (b : bool)
| RouteBytes (b : bytes)
| RouteSegments (l : list CIPSegment).

(** The [_kwargs] dictionary of [generic_message]; the last two keys are
    only set for an unconnected request. *)
Record request_kwargs := mkKwargs {
  kw_service : pyvalue;
  kw_class_code : pyvalue;
  kw_instance : pyvalue;
  kw_attribute : pyvalue;
  kw_request_data : pyvalue;
  kw_data_type : option string;
  kw_route_path : option bytes;
  kw_unconnected_send : option bool
}.

Inductive request_type :=
| RegisterSession (protocol_version : bytes)
| UnRegisterSession
| ListIdentity
| GenericConnected (kw : request_kwargs)
| GenericUnconnected (kw : request_kwargs).

(** What [send] reads of a [RequestPacket]. *)
Record RequestPacket := mkRequest {
  req_type : request_type;
  req_error : option string;
  no_response : bool
}.

(** What the driver reads of a [ResponsePacket]; [resp_bool] is its truth
    value. *)
Record ResponsePacket := mkResponse {
  resp_bool : bool;
  resp_value : pyvalue;
  resp_error : option string;
  resp_session : option Z;
  resp_identity : pyvalue
}.

(** [Tag(tag, value, type, error)] *)
Record Tag := mkTag {
  tag : string;
  value : pyvalue;
  type : option string;
  error : option string
}.

(** Truth value of an optional string: [None] and [''] are false. *)
Definition truthy (s : option string) : bool :=
  match s with
  | None | Some EmptyString => false
  | Some _ => true
  end.

(** The modules the driver imports and this file does not contain
    ([cip], [const], [packets], [tag], [custom_types], and the standard
    [ipaddress]), as an interface. *)
Class Collaborators := {
  ip_address : string -> bool;
  PADDED_EPATH_encode : list CIPSegment -> bool -> bool -> outcome bytes;
  MSG_ROUTER_PATH : list CIPSegment;
  PRIORITY : bytes;
  TIMEOUT_TICKS : bytes;
  TIMEOUT_MULTIPLIER : bytes;
  TRANSPORT_CLASS : bytes;
  forward_open : pyvalue;
  large_forward_open : pyvalue;
  forward_close : pyvalue;
  connection_manager : pyvalue;
  open_request : pyvalue;
  get_attributes_all : pyvalue;
  identity_object : pyvalue;
  (** the [error] a generic request carries from its construction *)
  generic_error : bool -> request_kwargs -> option string;
  (** [request.build_request(target_cid, session_id, context, option,
      sequence)]: the frame or an exception, and the iterator it was
      handed, advanced as far as it drew from it *)
  build_request :
    RequestPacket -> pyvalue -> option Z -> bytes -> Z -> cycle -> outcome bytes * cycle;
  (** [request.response_class(request, reply)] *)
  response_class : RequestPacket -> option bytes -> ResponsePacket;
  (** [bool(tag)] *)
  Tag_bool : Tag -> bool;
  ModuleIdentityObject_decode : pyvalue -> outcome pyvalue
}.

(** Modelled from the spec: the [RequestTypes] constructors of the missing
    [packets] module.  Registration and list-identity expect a reply;
    Unregister-Session is sent and "no response expected"; none of the three
    takes an argument that could make it malformed, so they carry no
    error.  A generic request carries whatever error its construction
    found. *)
Definition register_session (protocol_version : bytes) : RequestPacket :=
  mkRequest (RegisterSession protocol_version) None false.

Definition unregister_session : RequestPacket :=
  mkRequest UnRegisterSession None true.

Definition list_identity : RequestPacket :=
  mkRequest ListIdentity None false.

Definition generic_connected `{Collaborators} (kw : request_kwargs) : RequestPacket :=
  mkRequest (GenericConnected kw) (generic_error true kw) false.

Definition generic_unconnected `{Collaborators} (kw : request_kwargs) : RequestPacket :=
  mkRequest (GenericUnconnected kw) (generic_error false kw) false.

(** ** The driver object *)

(** [self._cfg]: a dictionary whose keys are fixed at construction, so a
    record with one field per key. *)
Record Cfg := mkCfg {
  cfg_context : bytes;
  cfg_protocol_version : bytes;
  cfg_rpi : Z;
  cfg_port : Z;
  cfg_timeout : Z;
  cfg_ip_address : string;
  cfg_cip_path : list PortSegment;
  cfg_option : Z;
  cfg_cid : bytes;
  cfg_csn : bytes;
  cfg_vid : bytes;
  cfg_vsn : bytes;
  cfg_extended_forward_open : bool
}.

Inductive Socket := SocketObject.

Record CIPDriver := mkDriver {
  _sequence : cycle;
  _sock : option Socket;
  _session : option Z;
  _connection_opened : bool;
  _target_cid : pyvalue;
  _target_is_connected : bool;
  _cfg : Cfg
}.

Definition set_sequence (c : cycle) (d : CIPDriver) : CIPDriver :=
  mkDriver c (_sock d) (_session d) (_connection_opened d) (_target_cid d)
    (_target_is_connected d) (_cfg d).

Definition set_sock (s : option Socket) (d : CIPDriver) : CIPDriver :=
  mkDriver (_sequence d) s (_session d) (_connection_opened d) (_target_cid d)
    (_target_is_connected d) (_cfg d).

Definition set_session (s : option Z) (d : CIPDriver) : CIPDriver :=
  mkDriver (_sequence d) (_sock d) s (_connection_opened d) (_target_cid d)
    (_target_is_connected d) (_cfg d).

Definition set_connection_opened (b : bool) (d : CIPDriver) : CIPDriver :=
  mkDriver (_sequence d) (_sock d) (_session d) b (_target_cid d)
    (_target_is_connected d) (_cfg d).

Definition set_target_cid (v : pyvalue) (d : CIPDriver) : CIPDriver :=
  mkDriver (_sequence d) (_sock d) (_session d) (_connection_opened d) v
    (_target_is_connected d) (_cfg d).

Definition set_target_is_connected (b : bool) (d : CIPDriver) : CIPDriver :=
  mkDriver (_sequence d) (_sock d) (_session d) (_connection_opened d) (_target_cid d)
    b (_cfg d).

Definition set_cfg (c : Cfg) (d : CIPDriver) : CIPDriver :=
  mkDriver (_sequence d) (_sock d) (_session d) (_connection_opened d) (_target_cid d)
    (_target_is_connected d) c.

Definition cfg_set_cid (v : bytes) (c : Cfg) : Cfg :=
  mkCfg (cfg_context c) (cfg_protocol_version c) (cfg_rpi c) (cfg_port c) (cfg_timeout c)
    (cfg_ip_address c) (cfg_cip_path c) (cfg_option c) v (cfg_csn c) (cfg_vid c)
    (cfg_vsn c) (cfg_extended_forward_open c).

Definition cfg_set_vsn (v : bytes) (c : Cfg) : Cfg :=
  mkCfg (cfg_context c) (cfg_protocol_version c) (cfg_rpi c) (cfg_port c) (cfg_timeout c)
    (cfg_ip_address c) (cfg_cip_path c) (cfg_option c) (cfg_cid c) (cfg_csn c) (cfg_vid c)
    v (cfg_extended_forward_open c).

Definition cfg_set_extended_forward_open (b : bool) (c : Cfg) : Cfg :=
  mkCfg (cfg_context c) (cfg_protocol_version c) (cfg_rpi c) (cfg_port c) (cfg_timeout c)
    (cfg_ip_address c) (cfg_cip_path c) (cfg_option c) (cfg_cid c) (cfg_csn c) (cfg_vid c)
    (cfg_vsn c) b.

(** [self._cfg['extended forward open']], called the frame-size
    preference: [true] is Extended, [false] is Standard. *)
Definition extended (d : CIPDriver) : bool := cfg_extended_forward_open (_cfg d).

(** [cycle(range(1, 65535))], the counter of a fresh driver. *)
Definition fresh_sequence : cycle := cycle_of (py_range 1 65535).

(** [self._cfg['extended forward open'] = False] *)
Definition downgrade (d : CIPDriver) : CIPDriver :=
  set_cfg (cfg_set_extended_forward_open false (_cfg d)) d.

(** [__init__(path, large_packets=True, socket=None, session=None)] *)
Definition __init__ `{Collaborators} (path : string) (large_packets : bool)
    (socket : option Socket) (session : option Z) : outcome CIPDriver :=
  obind (parse_connection_path ip_address path) (fun '(ip, _path) =>
    Return
      (mkDriver fresh_sequence socket session false PyNone false
         (mkCfg (list_byte_of_string "_pycomm_") [x01; x00] 5000 44818 10 ip _path 0
            [x27; x04; x19; x71] [x27; x04] [x09; x10] [x09; x10; x19; x71]
            large_packets))).

(** ** The transport *)

(** Every call the driver makes on its socket is recorded, oldest first. *)
Inductive sock_call :=
| SockConnect (ip : string) (port : Z)
| SockSend (message : bytes)
| SockReceive
| SockClose.

(** What the network will do: for each socket method the outcomes of its
    successive calls ([Some m]: the call raises [OSError m]), and the bytes
    [os.urandom] will hand out.  A method whose script has run out succeeds,
    except [receive], which times out. *)
Record world := mkWorld {
  calls : list sock_call;
  connect_script : list (option string);
  send_script : list (option string);
  receive_script : list (string + bytes);
  close_script : list (option string);
  urandom_script : list bytes
}.

Definition quiet : world := mkWorld [] [] [] [] [] [].

Definition is_close (c : sock_call) : bool :=
  match c with SockClose => true | _ => false end.

(** ** State and exceptions together *)

(** A method runs on the driver object and the world and leaves both
    changed, whether it returns or raises. *)
Definition M (A : Type) : Type := CIPDriver -> world -> outcome A * CIPDriver * world.

Definition ret {A} (a : A) : M A := fun d w => (Return a, d, w).

Definition raise {A} (e : exn) : M A := fun d w => (Raise e, d, w).

Definition bind {A B} (m : M A) (k : A -> M B) : M B :=
  fun d w =>
    match m d w with
    | (Return a, d', w') => k a d' w'
    | (Raise e, d', w') => (Raise e, d', w')
    end.

(** [try: m  except Exception as err: handler(err)] *)
Definition try_except {A} (m : M A) (handler : exn -> M A) : M A :=
  fun d w =>
    match m d w with
    | (Return a, d', w') => (Return a, d', w')
    | (Raise e, d', w') => handler e d' w'
    end.

Definition lift {A} (o : outcome A) : M A := fun d w => (o, d, w).

Definition get_self : M CIPDriver := fun d w => (Return d, d, w).

Definition update (f : CIPDriver -> CIPDriver) : M unit := fun d w => (Return tt, f d, w).

Definition when (b : bool) (m : M unit) : M unit := if b then m else ret tt.

Declare Scope py_scope.
Delimit Scope py_scope with py.
Notation "x <- m ;; k" := (bind m (fun x => k))
  (at level 61, m at next level, right associativity) : py_scope.
Notation "m ;; k" := (bind m (fun _ => k))
  (at level 61, right associativity) : py_scope.
Local Open Scope py_scope.

Definition result_of {A} (r : outcome A * CIPDriver * world) : outcome A := fst (fst r).
Definition driver_of {A} (r : outcome A * CIPDriver * world) : CIPDriver := snd (fst r).
Definition world_of {A} (r : outcome A * CIPDriver * world) : world := snd r.

(** ** Socket methods *)

Definition record (c : sock_call) (w : world) : list sock_call := calls w ++ [c].

(** [Socket()] followed by nothing: construction does not touch the
    network. *)
Definition sock_connect (ip : string) (p : Z) : M unit :=
  fun d w =>
    match _sock d with
    | None => (Raise (AttributeError "'NoneType' object has no attribute 'connect'"), d, w)
    | Some _ =>
        let w' r := mkWorld (record (SockConnect ip p) w) r (send_script w)
                      (receive_script w) (close_script w) (urandom_script w) in
        match connect_script w with
        | [] => (Return tt, d, w' [])
        | None :: r => (Return tt, d, w' r)
        | Some m :: r => (Raise (OSError m), d, w' r)
        end
    end.

Definition sock_send (message : bytes) : M unit :=
  fun d w =>
    match _sock d with
    | None => (Raise (AttributeError "'NoneType' object has no attribute 'send'"), d, w)
    | Some _ =>
        let w' r := mkWorld (record (SockSend message) w) (connect_script w) r
                      (receive_script w) (close_script w) (urandom_script w) in
        match send_script w with
        | [] => (Return tt, d, w' [])
        | None :: r => (Return tt, d, w' r)
        | Some m :: r => (Raise (OSError m), d, w' r)
        end
    end.

Definition sock_receive : M bytes :=
  fun d w =>
    match _sock d with
    | None => (Raise (AttributeError "'NoneType' object has no attribute 'receive'"), d, w)
    | Some _ =>
        let w' r := mkWorld (record SockReceive w) (connect_script w) (send_script w)
                      r (close_script w) (urandom_script w) in
        match receive_script w with
        | [] => (Raise (OSError "timed out"), d, w' [])
        | inr reply :: r => (Return reply, d, w' r)
        | inl m :: r => (Raise (OSError m), d, w' r)
        end
    end.

(** Only called under [if self._sock:]. *)
Definition sock_close : M unit :=
  fun d w =>
    let w' r := mkWorld (record SockClose w) (connect_script w) (send_script w)
                  (receive_script w) r (urandom_script w) in
    match close_script w with
    | [] => (Return tt, d, w' [])
    | None :: r => (Return tt, d, w' r)
    | Some m :: r => (Raise (OSError m), d, w' r)
    end.

(** [os.urandom(4)] *)
Definition urandom4 : M bytes :=
  fun d w =>
    match urandom_script w with
    | [] => (Return [x00; x00; x00; x00], d, w)
    | b :: r =>
        (Return b, d,
         mkWorld (calls w) (connect_script w) (send_script w) (receive_script w)
           (close_script w) r)
    end.

(** ** The methods of [CIPDriver] *)

Section Driver.

Context `{Collaborators}.

(** [connection_size] *)
Definition connection_size (d : CIPDriver) : Z :=
  if extended d then 4000 else 500.

(** [connected] *)
Definition connected (d : CIPDriver) : bool := _connection_opened d.

Definition _send (message : bytes) : M unit :=
  try_except (sock_send message)
    (fun err => raise (CommError "failed to send message" (Some err))).

Definition _receive : M bytes :=
  try_except sock_receive
    (fun err => raise (CommError "failed to receive reply" (Some err))).

(** [request.build_request] with the keyword arguments of [send]: the
    iterator passed as
    [sequence] is the driver's own, so what the builder draws is gone from
    [self._sequence]. *)
Definition build (request : RequestPacket) : M bytes :=
  fun d w =>
    let '(frame, seq') :=
      build_request request (_target_cid d) (_session d) (cfg_context (_cfg d))
        (cfg_option (_cfg d)) (_sequence d) in
    (frame, set_sequence seq' d, w).

Definition send (request : RequestPacket) : M ResponsePacket :=
  reply <- (if negb (truthy (req_error request)) then
              message <- build request ;;
              _send message ;;
              if no_response request then ret None
              else (r <- _receive ;; ret (Some r))
            else ret None) ;;
  ret (response_class request reply).

(** The arguments of [generic_message]. *)
Record message_args := mkArgs {
  arg_service : pyvalue;
  arg_class_code : pyvalue;
  arg_instance : pyvalue;
  arg_attribute : pyvalue;
  arg_request_data : pyvalue;
  arg_data_type : option string;
  arg_name : string;
  arg_connected : bool;
  arg_unconnected_send : bool;
  arg_route_path : route_spec
}.

(** [generic_message] and [_forward_open] call each other: the method
    starts with the connection guard, which calls [_forward_open], which
    sends its request through [generic_message(connected=False)].  The
    method is therefore written in two parts, what follows the guard
    first, and over its guard, which is tied in below. *)
Definition generic_message_request (a : message_args) : M Tag :=
  d <- get_self ;;
  let kw route us :=
    mkKwargs (arg_service a) (arg_class_code a) (arg_instance a) (arg_attribute a)
      (arg_request_data a) (arg_data_type a) route us in
  _kwargs <- (if negb (arg_connected a) then
                route <- (match arg_route_path a with
                          | RouteBool true =>
                              p <- lift (PADDED_EPATH_encode
                                           (map Port (cfg_cip_path (_cfg d))) true true) ;;
                              ret (Some p)
                          | RouteBytes b => ret (Some b)
                          | RouteSegments (s :: l) =>
                              p <- lift (PADDED_EPATH_encode (s :: l) true true) ;;
                              ret (Some p)
                          | RouteSegments [] | RouteBool false => ret None
                          end) ;;
                ret (kw route (Some (arg_unconnected_send a)))
              else ret (kw None None)) ;;
  let request := if arg_connected a then generic_connected _kwargs
                 else generic_unconnected _kwargs in
  response <- send request ;;
  ret (mkTag (arg_name a) (resp_value response) None (resp_error response)).

Definition generic_message_over (guard : M unit) (a : message_args) : M Tag :=
  when (arg_connected a) guard ;;
  generic_message_request a.

(** [value[:4]] *)
Definition first4 (v : pyvalue) : outcome pyvalue :=
  match v with
  | PyBytes b => Return (PyBytes (firstn 4 b))
  | PyStr s => Return (PyStr (substring 0 4 s))
  | PyNone => Raise (TypeError "'NoneType' object is not subscriptable")
  | PyBool _ => Raise (TypeError "'bool' object is not subscriptable")
  | PyInt _ => Raise (TypeError "'int' object is not subscriptable")
  end.

Definition init_net_params : Z := 0x4200.

(** The argument of [UDINT.encode] and of [UINT.encode]: in Python [<<]
    binds tighter than [&], and [&] tighter than [|]. *)
Definition net_params_extended (size : Z) : Z :=
  Z.lor (Z.land size 0xFFFF) (Z.shiftl init_net_params 16).

Definition net_params_standard (size : Z) : Z :=
  Z.lor (Z.land size 0x01FF) init_net_params.

Definition net_params (d : CIPDriver) : outcome bytes :=
  if extended d then UDINT_encode (net_params_extended (connection_size d))
  else UINT_encode (net_params_standard (connection_size d)).

Definition session_not_registered : string :=
  "A Session Not Registered Before forward_open.".

(** [_forward_open] from [init_net_params] on: the request and what is
    done with the response. *)
Definition forward_open_request (generic_message : message_args -> M Tag) : M bool :=
  d <- get_self ;;
  net_params <- lift (net_params d) ;;
  route_path <- lift (PADDED_EPATH_encode
                        (map Port (cfg_cip_path (_cfg d)) ++ MSG_ROUTER_PATH) true false) ;;
  let service := if negb (extended d) then forward_open else large_forward_open in
  let forward_open_msg :=
    [PRIORITY; TIMEOUT_TICKS; [x00; x00; x00; x00]; cfg_cid (_cfg d); cfg_csn (_cfg d);
     cfg_vid (_cfg d); cfg_vsn (_cfg d); TIMEOUT_MULTIPLIER; [x00; x00; x00];
     [x01; x40; x20; x00]; net_params; [x01; x40; x20; x00]; net_params;
     TRANSPORT_CLASS] in
  response <- generic_message
                (mkArgs service connection_manager open_request (PyBytes [])
                   (PyBytes (List.concat forward_open_msg)) None "__FORWARD_OPEN__"
                   false false (RouteBytes route_path)) ;;
  if Tag_bool response then
    cid <- lift (first4 (value response)) ;;
    update (set_target_cid cid) ;;
    update (set_target_is_connected true) ;;
    ret true
  else ret false.

Definition _forward_open_over (generic_message : message_args -> M Tag) : M bool :=
  d <- get_self ;;
  if _target_is_connected d then ret true
  else if match _session d with Some 0%Z => true | _ => false end then
    raise (CommError session_not_registered None)
  else forward_open_request generic_message.

(** The guard is never run by the unconnected request, so any guard
    does. *)
Definition _forward_open : M bool :=
  _forward_open_over (generic_message_over (ret tt)).

Definition not_connected_msg (func_name : string) : string :=
  "Target did not connected. " ++ func_name ++ " will not be executed.".

(** [with_forward_open(func)], applied to [self]; [func_name] is
    [func.__name__]. *)
Definition with_forward_open {A} (func_name : string) (func : M A) : M A :=
  opened <- (ok <- _forward_open ;;
             if negb ok then
               d <- get_self ;;
               if extended d then
                 update downgrade ;;
                 ok' <- _forward_open ;;
                 ret ok'
               else ret false
             else ret true) ;;
  if negb opened then raise (ResponseError (not_connected_msg func_name) None)
  else func.

(** [with_forward_open(lambda _: None)(self)] *)
Definition connection_guard : M unit :=
  with_forward_open "<lambda>" (ret tt).

Definition generic_message : message_args -> M Tag :=
  generic_message_over connection_guard.

(** [_register_session]: the session id, or [None] when the session was
    not registered.  A registered session is one whose id is truthy. *)
Definition _register_session : M (option Z) :=
  d <- get_self ;;
  if match _session d with Some s => negb (s =? 0)%Z | None => false end then
    ret (_session d)
  else
    update (set_session (Some 0%Z)) ;;
    d <- get_self ;;
    response <- send (register_session (cfg_protocol_version (_cfg d))) ;;
    if resp_bool response then
      update (set_session (resp_session response)) ;;
      ret (resp_session response)
    else ret None.

(** [open]: [None] when already open, else whether the session was
    registered. *)
Definition open : M (option bool) :=
  d <- get_self ;;
  if _connection_opened d then ret None
  else
    try_except
      (when (match _sock d with None => true | Some _ => false end)
         (update (set_sock (Some SocketObject))) ;;
       sock_connect (cfg_ip_address (_cfg d)) (cfg_port (_cfg d)) ;;
       update (set_connection_opened true) ;;
       cid <- urandom4 ;;
       update (fun d => set_cfg (cfg_set_cid cid (_cfg d)) d) ;;
       vsn <- urandom4 ;;
       update (fun d => set_cfg (cfg_set_vsn vsn (_cfg d)) d) ;;
       session <- _register_session ;;
       match session with
       | None => ret (Some false)
       | Some _ => ret (Some true)
       end)
      (fun err => raise (CommError "failed to open a connection" (Some err))).

Definition _un_register_session : M unit :=
  send unregister_session ;;
  update (set_session None).

Definition session_needed_for_close : string :=
  "A session need to be registered before to call forward_close.".

Definition _forward_close : M bool :=
  d <- get_self ;;
  if match _session d with Some 0%Z => true | _ => false end then
    raise (CommError session_needed_for_close None)
  else
    route_path <- lift (PADDED_EPATH_encode
                          (map Port (cfg_cip_path (_cfg d)) ++ MSG_ROUTER_PATH) true true) ;;
    let forward_close_msg :=
      [PRIORITY; TIMEOUT_TICKS; cfg_csn (_cfg d); cfg_vid (_cfg d); cfg_vsn (_cfg d)] in
    response <- generic_message
                  (mkArgs forward_close connection_manager open_request (PyBytes [])
                     (PyBytes (List.concat forward_close_msg)) None "__FORWARD_CLOSE__"
                     false false (RouteBytes route_path)) ;;
    if Tag_bool response then
      update (set_target_is_connected false) ;;
      ret true
    else ret false.

(** The first [try] of [close]: forward-close, then unregister. *)
Definition close_session : M unit :=
  d <- get_self ;;
  when (_target_is_connected d) (_forward_close ;; ret tt) ;;
  d <- get_self ;;
  when (match _session d with Some 0%Z => false | _ => true end) _un_register_session.

(** The second [try] of [close]. *)
Definition close_socket : M unit :=
  d <- get_self ;;
  when (match _sock d with Some _ => true | None => false end) sock_close.

(** A [try] whose handler appends the exception to [errs]. *)
Definition collecting (errs : list exn) (m : M unit) : M (list exn) :=
  try_except (m ;; ret errs) (fun err => ret (errs ++ [err])).

Definition reset (d : CIPDriver) : CIPDriver :=
  set_connection_opened false
    (set_session (Some 0%Z) (set_target_is_connected false (set_sock None d))).

Definition close : M unit :=
  errs <- collecting [] close_session ;;
  errs <- collecting errs close_socket ;;
  update reset ;;
  match errs with
  | [] => ret tt
  | _ => raise (CommError (join " - " (map str errs)) None)
  end.

Definition _list_identity : M pyvalue :=
  response <- send list_identity ;;
  ret (resp_identity response).

(** [str(x)] for the optional error text of a result. *)
Definition str_option (e : option string) : string :=
  match e with
  | None => "None"
  | Some s => s
  end.

Definition get_module_info (slot : Z) : M pyvalue :=
  try_except
    (route_path <- lift (PADDED_EPATH_encode
                           [Port (mkPortSegment (AStr "bp") (AInt slot))] true true) ;;
     response <- generic_message
                   (mkArgs get_attributes_all identity_object (PyBytes [x01]) (PyBytes [])
                      (PyBytes []) None "generic" false true (RouteBytes route_path)) ;;
     if Tag_bool response then lift (ModuleIdentityObject_decode (value response))
     else raise (ResponseError
                   ("generic_message did not return valid data - "
                      ++ str_option (error response)) None))
    (fun err => raise (ResponseError "error getting module info" (Some err))).

(** The methods a caller can invoke on a driver object. *)
Inductive method :=
| Open
| Close
| GenericMessage (a : message_args)
| GetModuleInfo (slot : Z)
| ListIdentity_
| Send (request : RequestPacket)
| RegisterSession_
| UnRegisterSession_
| ForwardOpen
| ForwardClose.

(** The state a call leaves behind, whether it returned or raised. *)
Definition after (m : method) (d : CIPDriver) (w : world) : CIPDriver * world :=
  match m with
  | Open => let r := open d w in (driver_of r, world_of r)
  | Close => let r := close d w in (driver_of r, world_of r)
  | GenericMessage a => let r := generic_message a d w in (driver_of r, world_of r)
  | GetModuleInfo slot => let r := get_module_info slot d w in (driver_of r, world_of r)
  | ListIdentity_ => let r := _list_identity d w in (driver_of r, world_of r)
  | Send request => let r := send request d w in (driver_of r, world_of r)
  | RegisterSession_ => let r := _register_session d w in (driver_of r, world_of r)
  | UnRegisterSession_ => let r := _un_register_session d w in (driver_of r, world_of r)
  | ForwardOpen => let r := _forward_open d w in (driver_of r, world_of r)
  | ForwardClose => let r := _forward_close d w in (driver_of r, world_of r)
  end.

Fixpoint after_all (ms : list method) (d : CIPDriver) (w : world) : CIPDriver * world :=
  match ms with
  | [] => (d, w)
  | m :: rest => let '(d', w') := after m d w in after_all rest d' w'
  end.

End Driver.

(** ** A bench to run the driver on

    Simple stand-ins for the imported modules, used by the worked examples:
    every frame starts with the encapsulation command of its request type
    (an unconnected frame then carries its service code, a connected one
    the sequence number it drew); a reply whose first byte is zero is a
    success carrying the rest as its value, any other reply is a service
    failure. *)

Definition pybytes (v : pyvalue) : bytes :=
  match v with
  | PyBytes b => b
  | _ => []
  end.

Definition bench_build_request (request : RequestPacket) (target_cid : pyvalue)
    (session_id : option Z) (context : bytes) (option : Z) (sequence : cycle)
    : outcome bytes * cycle :=
  match req_type request with
  | RegisterSession _ => (Return [x65], sequence)
  | UnRegisterSession => (Return [x66], sequence)
  | ListIdentity => (Return [x63], sequence)
  | GenericUnconnected kw => (Return (x6f :: pybytes (kw_service kw)), sequence)
  | GenericConnected kw =>
      match next sequence with
      | (Some n, sequence') => (Return (x70 :: le_bytes 2 n), sequence')
      | (None, sequence') => (Raise (ValueError "StopIteration"), sequence')
      end
  end.

Definition bench_response_class (request : RequestPacket) (reply : option bytes)
    : ResponsePacket :=
  match reply with
  | None => mkResponse false PyNone (Some "No reply") None PyNone
  | Some (x00 :: data) =>
      mkResponse true (PyBytes data) None (Some (le_value (firstn 4 data))) (PyBytes data)
  | Some _ => mkResponse false PyNone (Some "service failed") None PyNone
  end.

#[global] Instance bench : Collaborators := {|
  ip_address := ip_literal;
  PADDED_EPATH_encode := fun segments _ _ => Return (map (fun _ => x01) segments);
  MSG_ROUTER_PATH := [Logical 2 "class_id"; Logical 1 "instance_id"];
  PRIORITY := [x0a];
  TIMEOUT_TICKS := [x05];
  TIMEOUT_MULTIPLIER := [x07];
  TRANSPORT_CLASS := [xa3];
  forward_open := PyBytes [x54];
  large_forward_open := PyBytes [x5b];
  forward_close := PyBytes [x4e];
  connection_manager := PyBytes [x06];
  open_request := PyBytes [x01];
  get_attributes_all := PyBytes [x01];
  identity_object := PyBytes [x01];
  generic_error := fun _ _ => None;
  build_request := bench_build_request;
  response_class := bench_response_class;
  Tag_bool := fun t =>
    match value t, error t with
    | PyNone, _ => false
    | _, None => true
    | _, Some _ => false
    end;
  ModuleIdentityObject_decode := fun v => Return v
|}.

(** A driver that was handed a socket and a registered session. *)
Definition plugged (large_packets : bool) : outcome CIPDriver :=
  __init__ "10.20.30.100" large_packets (Some SocketObject) (Some 5%Z).

(** A driver as [CIPDriver('10.20.30.100')] builds it. *)
Definition unopened : outcome CIPDriver :=
  __init__ "10.20.30.100" true None None.

(** The two objects themselves. *)
Definition bench_cfg (large_packets : bool) : Cfg :=
  mkCfg (list_byte_of_string "_pycomm_") [x01; x00] 5000 44818 10 "10.20.30.100"
    [mkPortSegment (AStr "bp") (AInt 0)] 0 [x27; x04; x19; x71] [x27; x04] [x09; x10]
    [x09; x10; x19; x71] large_packets.

Definition plugged_driver (large_packets : bool) : CIPDriver :=
  mkDriver fresh_sequence (Some SocketObject) (Some 5%Z) false PyNone false
    (bench_cfg large_packets).

Definition unopened_driver : CIPDriver :=
  mkDriver fresh_sequence None None false PyNone false (bench_cfg true).

(** A driver with a connection open on the plugged socket. *)
Definition connected_driver : CIPDriver :=
  set_target_is_connected true (plugged_driver false).

Definition rejection : bytes := [x01].

(** A target that answers every request and rejects the first two. *)
Definition rejecting_twice : world :=
  mkWorld [] [] [] [inr rejection; inr rejection] [] [].

(** A target whose only answer is one rejection. *)
Definition rejecting_once : world :=
  mkWorld [] [] [] [inr rejection] [] [].

(** A target that accepts the Forward Open and then refuses to register a
    session. *)
Definition accepting_then_refusing : world :=
  mkWorld [] [] [] [inr [x00; x01; x02; x03; x04]; inr rejection] [] [].

(** A link that drops after one frame: the first reply never arrives and
    the second frame cannot be sent. *)
Definition dropping : world :=
  mkWorld [] [] [None; Some "broken pipe"] [inl "timed out"] [] [].

(** A read-attribute request on the identity object. *)
Definition read_identity (connected : bool) : message_args :=
  mkArgs (PyBytes [x0e]) (PyBytes [x01]) (PyBytes [x01]) (PyBytes [x07]) (PyBytes []) None
    "vendor" connected false (RouteBool true).

(** [close] as the spec words it: each teardown step in a [try] of its
    own. *)
Definition close_stepwise `{Collaborators} : M unit :=
  d <- get_self ;;
  errs <- collecting [] (when (_target_is_connected d) (_forward_close ;; ret tt)) ;;
  d <- get_self ;;
  errs <- collecting errs
            (when (match _session d with Some 0%Z => false | _ => true end)
               _un_register_session) ;;
  errs <- collecting errs close_socket ;;
  update reset ;;
  match errs with
  | [] => ret tt
  | _ => raise (CommError (join " - " (map str errs)) None)
  end.

(** The consecutive pairs of a token list, a trailing singleton left
    out. *)
Fixpoint pair_up (tokens : list string) : list PortSegment :=
  match tokens with
  | p :: l :: rest => mkPortSegment (AStr p) (AStr l) :: pair_up rest
  | _ => []
  end.

(** The state after [n] calls of [next]. *)
Fixpoint advance (n : nat) (c : cycle) : cycle :=
  match n with
  | O => c
  | S k => advance k (snd (next c))
  end.

(** ** Predicates used in the statements *)

(** A relation between the state before and the state after, kept by an
    action on every state it is run from. *)
Definition keeps {A} (R : CIPDriver -> world -> CIPDriver -> world -> Prop) (m : M A) : Prop :=
  forall d w, R d w (driver_of (m d w)) (world_of (m d w)).

(** The frame-size preference is the same after as before. *)
Definition same_preference (d : CIPDriver) (w : world) (d' : CIPDriver) (w' : world) : Prop :=
  extended d' = extended d.

(** The preference did not move, or moved from Extended to Standard. *)
Definition only_downgrades (d : CIPDriver) (w : world) (d' : CIPDriver) (w' : world) : Prop :=
  extended d' = extended d \/ (extended d = true /\ extended d' = false).

(** Nothing was done to the socket handle nor was the socket closed. *)
Definition socket_untouched (d : CIPDriver) (w : world) (d' : CIPDriver) (w' : world) : Prop :=
  _sock d' = _sock d /\ filter is_close (calls w') = filter is_close (calls w).

(** The exception a run ended with, as the list a [try] of [close] adds to
    [errs]. *)
Definition fault_of {A} (r : outcome A * CIPDriver * world) : list exn :=
  match result_of r with
  | Return _ => []
  | Raise e => [e]
  end.

(** An update that leaves the socket handle and the preference alone. *)
Definition harmless (f : CIPDriver -> CIPDriver) : Prop :=
  forall d, _sock (f d) = _sock d /\ extended (f d) = extended d.

(** The two faults of the transport layer. *)
Definition is_transport_fault (e : exn) : bool :=
  match e with
  | CommError m (Some _) =>
      String.eqb m "failed to send message" || String.eqb m "failed to receive reply"
  | _ => false
  end.

(** An exception that one of the imported encoders raised. *)
Definition codec_raised `{Collaborators} (e : exn) : Prop :=
  (exists segments length pad, PADDED_EPATH_encode segments length pad = Raise e) \/
  (exists request cid session context option sequence,
      fst (build_request request cid session context option sequence) = Raise e).

(** An exception of the exchange itself: the transport failed or an
    encoder refused. *)
Definition exchange_fault `{Collaborators} (e : exn) : Prop :=
  is_transport_fault e = true \/ codec_raised e.

(** The exceptions the Forward-Open request can end with: those of the
    exchange, and those of packing the parameters and slicing the
    response value. *)
Definition request_fault `{Collaborators} (e : exn) : Prop :=
  exchange_fault e \/ (exists m, e = ValueError m) \/ (exists m, e = TypeError m).

(** An action that, whatever the state, raises only exceptions in [P]. *)
Definition raises_only {A} (P : exn -> Prop) (m : M A) : Prop :=
  forall d w e, result_of (m d w) = Raise e -> P e.

(** An action that, whatever the state, returns only values in [Q]. *)
Definition returns_only {A} (Q : A -> Prop) (m : M A) : Prop :=
  forall d w a, result_of (m d w) = Return a -> Q a.

(** The request a call of [generic_message] builds, or the exception of
    the route encoder: the keyword arguments, with the route and the
    unconnected-send flag for an unconnected call only. *)
Definition generic_request `{Collaborators} (a : message_args) (d : CIPDriver)
    : outcome RequestPacket :=
  let kw route us :=
    mkKwargs (arg_service a) (arg_class_code a) (arg_instance a) (arg_attribute a)
      (arg_request_data a) (arg_data_type a) route us in
  if arg_connected a then Return (generic_connected (kw None None))
  else
    obind (match arg_route_path a with
           | RouteBool true =>
               obind (PADDED_EPATH_encode (map Port (cfg_cip_path (_cfg d))) true true)
                 (fun p => Return (Some p))
           | RouteBytes b => Return (Some b)
           | RouteSegments (s :: l) =>
               obind (PADDED_EPATH_encode (s :: l) true true) (fun p => Return (Some p))
           | RouteSegments [] | RouteBool false => Return None
           end)
      (fun route => Return (generic_unconnected (kw route (Some (arg_unconnected_send a))))).

(** The fault of the guard at the top of [_forward_open]. *)
Definition guard_fault : exn := CommError "A Session Not Registered Before forward_open." None.

(** ** The context manager and the class methods *)

(** [__enter__]: opens, and returns the driver itself, which the state
    already carries. *)
Definition __enter__ `{Collaborators} : M unit :=
  open ;; ret tt.

(** [try: m  except CommError: handler]: every other exception passes. *)
Definition except_CommError {A} (m : M A) (handler : M A) : M A :=
  try_except m
    (fun err => match err with
                | CommError _ _ => handler
                | _ => raise err
                end).

(** [__exit__(exc_type, exc_val, exc_tb)]; [exc_type] is read for its truth
    value only: [true] when the body of the [with] raised. *)
Definition __exit__ `{Collaborators} (exc_type : bool) : M bool :=
  closed <- except_CommError (close ;; ret true) (ret false) ;;
  if negb closed then ret false
  else if negb exc_type then ret true
  else ret false.

(** The class method [CIPDriver.list_identity(path)]: it builds a driver of
    its own, so it runs on the world alone. *)
Definition CIPDriver_list_identity `{Collaborators} (path : string) (w : world)
    : outcome pyvalue * world :=
  match __init__ path true None None with
  | Raise e => (Raise e, w)
  | Return plc =>
      let r := (open ;;
                identity <- _list_identity ;;
                close ;;
                ret identity) plc w in
      (result_of r, world_of r)
  end.

(** ** Discovery *)

(** The calls [_broadcast_discover] makes on its datagram socket. *)
Inductive udp_call :=
| UdpBind (ip : string) (port : Z)
| UdpSendto (message : bytes) (host : string) (port : Z)
| UdpRecv (bufsize : Z).

(** One datagram socket: the calls made on it, oldest first, and what the
    network will do: whether creating the socket, binding it and sending
    on it fail ([Some m]: [OSError m]), and what the successive [recv]
    calls give.  When nothing is left to receive, [recv] times out. *)
Record udp := mkUdp {
  udp_calls : list udp_call;
  socket_outcome : option string;
  bind_outcome : option string;
  sendto_outcome : option string;
  datagrams : list (string + bytes)
}.

(** A socket on which everything succeeds and nothing answers. *)
Definition silent : udp := mkUdp [] None None None [].

Fixpoint bytes_eqb (a b : bytes) : bool :=
  match a, b with
  | [], [] => true
  | x :: a', y :: b' => Byte.eqb x y && bytes_eqb a' b'
  | _, _ => false
  end.

(** Modelled from the spec: the [raw] attribute of a response is the frame
    it was built from, of which bytes 12 to 20 are the sender context the
    request went out with. *)
Definition raw_context (resp : bytes) : bytes := slice resp 12 20.

(** [if response and response.raw[12:20] == context] *)
Definition answers `{Collaborators} (context : bytes) (request : RequestPacket)
    (resp : bytes) : bool :=
  resp_bool (response_class request (Some resp)) && bytes_eqb (raw_context resp) context.

(** The [while True] loop of [_broadcast_discover]: it ends with the first
    [recv] that raises. *)
Fixpoint receive_loop `{Collaborators} (context : bytes) (request : RequestPacket)
    (incoming : list (string + bytes)) (log : list udp_call) (devices : list pyvalue)
    : list pyvalue * list udp_call * list (string + bytes) :=
  match incoming with
  | [] => (devices, log ++ [UdpRecv 4096], [])
  | inl _ :: rest => (devices, log ++ [UdpRecv 4096], rest)
  | inr resp :: rest =>
      receive_loop context request rest (log ++ [UdpRecv 4096])
        (if answers context request resp
         then devices ++ [resp_identity (response_class request (Some resp))]
         else devices)
  end.

(** [_broadcast_discover(ip, message, context, request)] on the socket it
    creates. *)
Definition _broadcast_discover `{Collaborators} (ip : option string) (message context : bytes)
    (request : RequestPacket) (u : udp) : outcome (list pyvalue) * udp :=
  match socket_outcome u with
  | Some m => (Raise (OSError m), u)
  | None =>
      let bound :=
        match ip with
        | Some a => if truthy ip then udp_calls u ++ [UdpBind a 0] else udp_calls u
        | None => udp_calls u
        end in
      let with_calls l i :=
        mkUdp l (socket_outcome u) (bind_outcome u) (sendto_outcome u) i in
      match (if truthy ip then bind_outcome u else None) with
      | Some m => (Raise (OSError m), with_calls bound (datagrams u))
      | None =>
          let sent := bound ++ [UdpSendto message "255.255.255.255" 44818] in
          match sendto_outcome u with
          | Some m => (Raise (OSError m), with_calls sent (datagrams u))
          | None =>
              let '(devices, log, rest) :=
                receive_loop context request (datagrams u) sent [] in
              (Return devices, with_calls log rest)
          end
      end
  end.

(** The sockets discovery will create, and those it is done with. *)
Record network := mkNetwork { upcoming : list udp; finished : list udp }.

(** One probe: a new socket, handed to [_broadcast_discover]. *)
Definition probe `{Collaborators} (ip : option string) (message context : bytes)
    (request : RequestPacket) (n : network) : outcome (list pyvalue) * network :=
  let '(u, rest) := match upcoming n with
                    | [] => (silent, [])
                    | u :: rest => (u, rest)
                    end in
  let '(r, u') := _broadcast_discover ip message context request u in
  (r, mkNetwork rest (finished n ++ [u'])).

(** [for ip in ip_addrs: devices += cls._broadcast_discover(ip, ...)] *)
Fixpoint probe_each `{Collaborators} (ip_addrs : list string) (message context : bytes)
    (request : RequestPacket) (devices : list pyvalue) (n : network)
    : outcome (list pyvalue) * network :=
  match ip_addrs with
  | [] => (Return devices, n)
  | ip :: rest =>
      match probe (Some ip) message context request n with
      | (Raise e, n') => (Raise e, n')
      | (Return found, n') => probe_each rest message context request (devices ++ found) n'
      end
  end.

(** [discover()]; [ip_addrs] is what the comprehension over
    [socket.getaddrinfo] gave, the IPv4 addresses of the host.  The request
    is built without a sequence, so the builder is handed an iterator with
    nothing in it. *)
Definition discover `{Collaborators} (ip_addrs : list string) (n : network)
    : outcome (list pyvalue) * network :=
  match __init__ "0.0.0.0" true None None with
  | Raise e => (Raise e, n)
  | Return driver =>
      let driver := set_session (Some 0%Z) driver in
      let context := cfg_context (_cfg driver) in
      let option := cfg_option (_cfg driver) in
      let request := list_identity in
      match fst (build_request request PyNone (_session driver) context option
                   (cycle_of [])) with
      | Raise e => (Raise e, n)
      | Return message =>
          match probe_each ip_addrs message context request [] n with
          | (Raise e, n') => (Raise e, n')
          | (Return [], n') =>
              match probe None message context request n' with
              | (Raise e, n'') => (Raise e, n'')
              | (Return found, n'') => (Return ([] ++ found), n'')
              end
          | (Return devices, n') => (Return devices, n')
          end
      end
  end.

(** The replies a socket hears: those before its first failing [recv]. *)
Fixpoint heard (incoming : list (string + bytes)) : list bytes :=
  match incoming with
  | inr resp :: rest => resp :: heard rest
  | _ => []
  end.

(** A socket on which creating, binding and sending succeed. *)
Definition healthy (u : udp) : Prop :=
  socket_outcome u = None /\ bind_outcome u = None /\ sendto_outcome u = None.

(** ** More predicates *)

(** Of the driver object only the sequence counter may have moved. *)
Definition sequence_only (d : CIPDriver) (w : world) (d' : CIPDriver) (w' : world) : Prop :=
  d' = set_sequence (_sequence d') d.

(** Of the driver object only the session and the sequence counter may
    have moved. *)
Definition session_only (d : CIPDriver) (w : world) (d' : CIPDriver) (w' : world) : Prop :=
  d' = set_session (_session d') (set_sequence (_sequence d') d).

(** The socket was not closed: no [close] call was added to the log. *)
Definition nothing_closed (d : CIPDriver) (w : world) (d' : CIPDriver) (w' : world) : Prop :=
  filter is_close (calls w') = filter is_close (calls w).

(** The identities a socket yields: those of the replies it hears that
    are answers to the request. *)
Definition found_on `{Collaborators} (context : bytes) (request : RequestPacket) (u : udp)
    : list pyvalue :=
  map (fun resp => resp_identity (response_class request (Some resp)))
    (filter (answers context request) (heard (datagrams u))).

(** The first [count] sockets discovery will create. *)
Definition sockets_of (n : network) (count : nat) : list udp :=
  map (fun k => nth k (upcoming n) silent) (seq 0 count).

(** The [bind] call of a probe, made for an address that is not empty. *)
Definition bind_call (ip : option string) : list udp_call :=
  match ip with
  | Some a => if truthy ip then [UdpBind a 0] else []
  | None => []
  end.

(** A reply the bench takes for valid, echoing [context] at bytes 12 to
    20 and carrying [identity] after it. *)
Definition echo (context identity : bytes) : bytes :=
  x00 :: repeat x00 11 ++ context ++ identity.

(** A socket that hears an answer, then a reply that is none, then
    nothing for a while, although a second answer is on its way. *)
Definition one_answer : udp :=
  mkUdp [] None None None
    [inr (echo (list_byte_of_string "_pycomm_") [x01]); inr [x01]; inl "timed out";
     inr (echo (list_byte_of_string "_pycomm_") [x02])].

(** * Properties *)

(** ** The path parser *)

Lemma split_not_nil (sep : ascii) (s : string) : split sep s <> [].
Proof.
  induction s as [|c r IH]; simpl; [discriminate|].
  destruct (Ascii.eqb c sep); [discriminate|].
  destruct (split sep r); discriminate.
Qed.

Lemma split_head_prefix (sep : ascii) (s h : string) (t : list string) :
  split sep s = h :: t -> prefixb h s = true.
Proof.
  revert h t. induction s as [|c r IH]; simpl; intros h t E.
  - injection E as <- _. reflexivity.
  - destruct (Ascii.eqb c sep).
    + injection E as <- _. reflexivity.
    + destruct (split sep r) as [|h' t'] eqn:S.
      * injection E as <- _. simpl. rewrite Ascii.eqb_refl. destruct r; reflexivity || (now apply split_not_nil in S).
      * injection E as <- _. simpl. rewrite Ascii.eqb_refl. simpl. eapply IH. reflexivity.
Qed.

Lemma replace_idempotent (a b : ascii) (s : string) :
  a <> b -> replace a b (replace a b s) = replace a b s.
Proof.
  intros N. induction s as [|c r IH]; simpl; [reflexivity|].
  rewrite IH. f_equal.
  destruct (Ascii.eqb c a) eqn:E; [|now rewrite E].
  destruct (Ascii.eqb b a) eqn:E'; [|reflexivity].
  apply Ascii.eqb_eq in E'. congruence.
Qed.

Lemma range_step2_SS (n : nat) :
  range_step2 (S (S n)) = 0%nat :: map (fun i => i + 2)%nat (range_step2 n).
Proof.
  unfold range_step2.
  change (Nat.div2 (S (S (S n)))) with (S (Nat.div2 (S n))).
  rewrite <- cons_seq, <- seq_shift. simpl map at 1.
  f_equal. rewrite !map_map. apply map_ext. intros k. lia.
Qed.

Lemma pairs_cons2 (a b : string) (r : list string) :
  map (fun i => slice (a :: b :: r) i (i + 2)) (range_step2 (List.length (a :: b :: r))) =
  [a; b] :: map (fun i => slice r i (i + 2)) (range_step2 (List.length r)).
Proof.
  simpl List.length. rewrite range_step2_SS. simpl map at 1.
  f_equal. rewrite map_map. apply map_ext. intros i.
  unfold slice. replace (i + 2 + 2 - (i + 2))%nat with 2%nat by lia.
  replace (i + 2 - i)%nat with 2%nat by lia.
  replace (i + 2)%nat with (S (S i)) by lia. reflexivity.
Qed.

(** The comprehension over the slices returns the consecutive pairs when
    the tokens come in pairs, and fails on the trailing singleton when they
    do not. *)
Lemma comprehension_pairs (n : nat) : forall l : list string,
  (List.length l <= n)%nat ->
  comprehension unpack_pair
    (map (fun i => slice l i (i + 2)) (range_step2 (List.length l))) =
  if Nat.even (List.length l) then Return (pair_up l)
  else Raise (ValueError "not enough values to unpack (expected 2, got 1)").
Proof.
  induction n as [|n IH]; intros l L.
  - destruct l; [reflexivity | simpl in L; lia].
  - destruct l as [|a [|b r]]; [reflexivity | reflexivity |].
    rewrite pairs_cons2. cbn [comprehension unpack_pair obind].
    rewrite IH by (simpl in L; lia).
    change (Nat.even (List.length (a :: b :: r))) with (Nat.even (List.length r)).
    destruct (Nat.even (List.length r)); reflexivity.
Qed.

(** The pairs are the tokens, two by two and in order. *)
Lemma pair_up_flatten (n : nat) : forall l : list string,
  (List.length l <= n)%nat -> Nat.even (List.length l) = true ->
  flat_map (fun p => [port p; link_address p]) (pair_up l) = map AStr l.
Proof.
  induction n as [|n IH]; intros l L E.
  - destruct l; [reflexivity | simpl in L; lia].
  - destruct l as [|a [|b r]]; [reflexivity | discriminate |].
    simpl. f_equal. f_equal. apply IH; [simpl in L; lia | exact E].
Qed.

(** What the parser does, case by case, in terms of the tokens of the
    path. *)
Lemma parse_connection_path_eq (valid : string -> bool) (path ip : string)
    (segments : list string) :
  split "/" (replace "\" "/" path) = ip :: segments ->
  parse_connection_path valid path =
  if valid ip then
    match segments with
    | [] => Return (ip, [mkPortSegment (AStr "bp") (AInt 0)])
    | [s] => Return (ip, [mkPortSegment (AStr "bp") (AStr s)])
    | _ :: _ :: _ =>
        if Nat.even (List.length segments) then Return (ip, pair_up segments)
        else Raise (RequestError
                      ("Failed to parse connection path: " ++ replace "\" "/" path)
                      (Some (ValueError "not enough values to unpack (expected 2, got 1)")))
    end
  else Raise (RequestError
                ("Failed to parse connection path: " ++ replace "\" "/" path)
                (Some (RequestError ("Invalid IP Address: " ++ ip)
                         (Some (ValueError
                                  (py_repr ip ++ " does not appear to be an IPv4 or IPv6 address")))))).
Proof.
  intros S. unfold parse_connection_path, parse_body. rewrite S.
  destruct (valid ip); [|reflexivity].
  destruct segments as [|a [|b r]]; [reflexivity | reflexivity |].
  cbn [obind].
  rewrite (comprehension_pairs (List.length (a :: b :: r))) by apply Nat.le_refl.
  destruct (Nat.even (List.length (a :: b :: r))); reflexivity.
Qed.

(** C4 (as amended): when the tokens after the address are three or more
    and odd in number, the parser does not drop the last one: unpacking the
    trailing singleton fails, and the parser raises a [RequestError] that
    carries the path. *)
Theorem odd_trailing_token_is_rejected (valid : string -> bool) (path ip : string)
    (segments : list string) :
  split "/" (replace "\" "/" path) = ip :: segments ->
  valid ip = true ->
  (2 <= List.length segments)%nat ->
  Nat.odd (List.length segments) = true ->
  parse_connection_path valid path =
  Raise (RequestError ("Failed to parse connection path: " ++ replace "\" "/" path)
           (Some (ValueError "not enough values to unpack (expected 2, got 1)"))).
Proof.
  intros S V L O. rewrite (parse_connection_path_eq valid path ip segments S), V.
  destruct segments as [|a [|b r]]; [simpl in L; lia | simpl in L; lia |].
  unfold Nat.odd in O. destruct (Nat.even (List.length (a :: b :: r))); [discriminate|reflexivity].
Qed.

Lemma odd_trailing_token_is_rejected_witness :
  parse_connection_path dotted_quad "10.20.30.100/bp/1/enet" =
  Raise (RequestError "Failed to parse connection path: 10.20.30.100/bp/1/enet"
           (Some (ValueError "not enough values to unpack (expected 2, got 1)"))).
Proof.
  apply (odd_trailing_token_is_rejected dotted_quad "10.20.30.100/bp/1/enet"
           "10.20.30.100" ["bp"; "1"; "enet"]).
  - reflexivity.
  - reflexivity.
  - simpl. lia.
  - reflexivity.
Defined.

(** C4, the claim as written, fails: with the three tokens [bp], [2],
    [enet] after the address the parser raises instead of returning the one
    pair it could form. *)
Lemma odd_trailing_token_counterexample :
  split "/" "1.2.3.4/bp/2/enet" = ["1.2.3.4"; "bp"; "2"; "enet"] /\
  parse_connection_path dotted_quad "1.2.3.4/bp/2/enet" <>
    Return ("1.2.3.4", pair_up ["bp"; "2"; "enet"]) /\
  parse_connection_path dotted_quad "1.2.3.4/bp/2/enet" =
    Raise (RequestError "Failed to parse connection path: 1.2.3.4/bp/2/enet"
             (Some (ValueError "not enough values to unpack (expected 2, got 1)"))).
Proof.
  split; [reflexivity|]. split; [|reflexivity].
  intros E. discriminate E.
Qed.

(** C8 (as amended): the parser on every path, by the tokens that [/] and
    [\] separate.  A first token the address check refuses gives a
    [RequestError] whose text carries the path, which starts with that
    token, and whose cause names the token; no further token gives the
    default segment, one gives a backplane segment, an even number gives
    the consecutive pairs in order, and an odd number from three on gives a
    [RequestError]. *)
Theorem parse_connection_path_cases (valid : string -> bool) (path ip : string)
    (segments : list string) :
  split "/" (replace "\" "/" path) = ip :: segments ->
  parse_connection_path valid path =
    (if valid ip then
       match segments with
       | [] => Return (ip, [mkPortSegment (AStr "bp") (AInt 0)])
       | [s] => Return (ip, [mkPortSegment (AStr "bp") (AStr s)])
       | _ :: _ :: _ =>
           if Nat.even (List.length segments) then Return (ip, pair_up segments)
           else Raise (RequestError
                         ("Failed to parse connection path: " ++ replace "\" "/" path)
                         (Some (ValueError "not enough values to unpack (expected 2, got 1)")))
       end
     else Raise (RequestError
                   ("Failed to parse connection path: " ++ replace "\" "/" path)
                   (Some (RequestError ("Invalid IP Address: " ++ ip)
                            (Some (ValueError
                                     (py_repr ip ++ " does not appear to be an IPv4 or IPv6 address"))))))) /\
  prefixb ip (replace "\" "/" path) = true /\
  parse_connection_path valid (replace "\" "/" path) = parse_connection_path valid path /\
  (Nat.even (List.length segments) = true ->
   flat_map (fun p => [port p; link_address p]) (pair_up segments) = map AStr segments).
Proof.
  intros S. split; [exact (parse_connection_path_eq valid path ip segments S)|].
  split; [exact (split_head_prefix _ _ _ _ S)|]. split.
  - unfold parse_connection_path. rewrite replace_idempotent; [reflexivity|].
    intros E. discriminate E.
  - intros E. exact (pair_up_flatten (List.length segments) segments (Nat.le_refl _) E).
Qed.

Lemma parse_connection_path_cases_witness :
  parse_connection_path dotted_quad "1.2.3.4\backplane/2/enet\6.7.8.9" =
  Return ("1.2.3.4", [mkPortSegment (AStr "backplane") (AStr "2");
                      mkPortSegment (AStr "enet") (AStr "6.7.8.9")]).
Proof.
  exact (proj1 (parse_connection_path_cases dotted_quad "1.2.3.4\backplane/2/enet\6.7.8.9"
                  "1.2.3.4" ["backplane"; "2"; "enet"; "6.7.8.9"] eq_refl)).
Defined.

(** C8, the claim as written, fails on two of its clauses.  The first:
    the address check is [ipaddress.ip_address], which accepts IPv6
    literals; the token [::1] is no IPv4 address, and the parser fails on
    no fault but returns it with the default segment.  The last: five
    tokens after a valid address are "two or more", and the parser returns
    no pairs for them but raises. *)
Lemma parse_two_or_more_counterexample :
  (dotted_quad "::1" = false /\
   ip_literal "::1" = true /\
   parse_connection_path ip_literal "::1" =
     Return ("::1", [mkPortSegment (AStr "bp") (AInt 0)])) /\
  split "/" "10.20.30.100/backplane/1/enet/192.168.1.5/backplane" =
    ["10.20.30.100"; "backplane"; "1"; "enet"; "192.168.1.5"; "backplane"] /\
  ip_literal "10.20.30.100" = true /\
  parse_connection_path ip_literal "10.20.30.100/backplane/1/enet/192.168.1.5/backplane" <>
    Return ("10.20.30.100",
            pair_up ["backplane"; "1"; "enet"; "192.168.1.5"; "backplane"]) /\
  parse_connection_path ip_literal "10.20.30.100/backplane/1/enet/192.168.1.5/backplane" =
    Raise (RequestError
             "Failed to parse connection path: 10.20.30.100/backplane/1/enet/192.168.1.5/backplane"
             (Some (ValueError "not enough values to unpack (expected 2, got 1)"))).
Proof.
  split; [repeat split|].
  split; [reflexivity|]. split; [reflexivity|]. split; [|reflexivity].
  intros E. discriminate E.
Qed.

(** The cause of a refused address is worded with [repr]: a token that
    holds a quote is shown between double quotes. *)
Example refused_address_on_the_bench :
  parse_connection_path ip_literal "a'b/1" =
  Raise (RequestError "Failed to parse connection path: a'b/1"
           (Some (RequestError "Invalid IP Address: a'b"
                    (Some (ValueError
                             (String double_quote "a'b" ++
                              String double_quote " does not appear to be an IPv4 or IPv6 address")))))).
Proof. reflexivity. Qed.

(** ** The sequence counter *)

Lemma count_from_length (n : nat) : forall s, List.length (count_from s n) = n.
Proof. induction n as [|n IH]; intros s; simpl; [reflexivity | now rewrite IH]. Qed.

Lemma count_from_nth (n : nat) : forall s k,
  (k < n)%nat -> nth_error (count_from s n) k = Some (s + Z.of_nat k)%Z.
Proof.
  induction n as [|n IH]; intros s k L; [lia|].
  destruct k as [|k]; simpl.
  - f_equal. lia.
  - rewrite IH by lia. f_equal. lia.
Qed.

Lemma count_from_bounds (n : nat) : forall s,
  Forall (fun v => (s <= v < s + Z.of_nat n)%Z) (count_from s n).
Proof.
  induction n as [|n IH]; intros s; simpl; constructor; [lia|].
  eapply Forall_impl; [|apply IH]. intros v. cbv beta. lia.
Qed.

Lemma count_from_NoDup (n : nat) : forall s, NoDup (count_from s n).
Proof.
  induction n as [|n IH]; intros s; simpl; constructor; [|apply IH].
  intros I. pose proof (count_from_bounds n (s + 1)%Z) as B.
  rewrite Forall_forall in B. specialize (B s I). lia.
Qed.

Lemma draw_first_pass (k : nat) : forall rest done,
  (k < List.length rest)%nat -> draw k (mkCycle rest done true) = nth_error rest k.
Proof.
  induction k as [|k IH]; intros rest done L; destruct rest as [|x r]; simpl in L; try lia.
  - reflexivity.
  - cbn [draw next pending first_pass snd]. apply IH. lia.
Qed.

Lemma draws_first_pass (rest : list Z) : forall done,
  draws (List.length rest) (mkCycle rest done true) = map Some rest.
Proof.
  induction rest as [|x r IH]; intros done; [reflexivity|].
  cbn [List.length draws next pending first_pass fst snd map]. now rewrite IH.
Qed.

Lemma advance_first_pass (rest : list Z) : forall done,
  advance (List.length rest) (mkCycle rest done true) = mkCycle [] (done ++ rest) true.
Proof.
  induction rest as [|x r IH]; intros done.
  - now rewrite app_nil_r.
  - cbn [List.length advance next pending first_pass saved snd]. rewrite IH.
    now rewrite <- app_assoc.
Qed.

Lemma draw_after (n : nat) : forall k c, draw (n + k) c = draw k (advance n c).
Proof. induction n as [|n IH]; intros k c; [reflexivity | apply IH]. Qed.

(** After one full pass the counter starts again at the first element. *)
Lemma draw_wraps (x : Z) (r : list Z) :
  draw (List.length (x :: r)) (cycle_of (x :: r)) = Some x.
Proof.
  rewrite <- (Nat.add_0_r (List.length (x :: r))), draw_after.
  unfold cycle_of. rewrite advance_first_pass. reflexivity.
Qed.

(** A counter over values that all satisfy [P] only ever hands out such
    values, and never runs dry. *)
Lemma draw_invariant (P : Z -> Prop) (n : nat) : forall c,
  Forall P (pending c) -> Forall P (saved c) ->
  (first_pass c = false -> saved c <> []) ->
  (pending c <> [] \/ saved c <> []) ->
  exists v, draw n c = Some v /\ P v.
Proof.
  induction n as [|n IH]; intros [p s f] Fp Fs Hf Hne; cbn [pending saved first_pass] in *.
  - destruct p as [|x r]; cbn [draw next pending saved fst].
    + destruct s as [|x r]; [destruct Hne as [E|E]; now elim E|].
      exists x. split; [reflexivity | now inversion Fs].
    + exists x. split; [reflexivity | now inversion Fp].
  - destruct p as [|x r]; cbn [draw next pending saved first_pass snd].
    + destruct s as [|x r]; [destruct Hne as [E|E]; now elim E|].
      apply IH; cbn [pending saved first_pass]; try assumption.
      * now inversion Fs.
      * discriminate.
      * right. discriminate.
    + inversion Fp as [|? ? Px Pr]; subst.
      apply IH; cbn [pending saved first_pass]; try assumption.
      * destruct f; [|assumption]. apply Forall_app. split; [assumption|]. now constructor.
      * intros ->. now apply Hf.
      * right. destruct f; [|now apply Hf]. now destruct s.
Qed.

Lemma py_range_1_65535 : py_range 1 65535 = 1%Z :: count_from 2 (Z.to_nat 65533).
Proof.
  unfold py_range. change (65535 - 1)%Z with (Z.succ 65533).
  rewrite Z2Nat.inj_succ by lia. reflexivity.
Qed.

Lemma py_range_length : List.length (py_range 1 65535) = Z.to_nat 65534.
Proof. unfold py_range. rewrite count_from_length. reflexivity. Qed.

Lemma init_sequence `{Collaborators} (path : string) (large_packets : bool)
    (socket : option Socket) (session : option Z) (d : CIPDriver) :
  __init__ path large_packets socket session = Return d -> _sequence d = fresh_sequence.
Proof.
  unfold __init__, obind.
  destruct (parse_connection_path ip_address path) as [[ip p]|e]; [|discriminate].
  now intros [= <-].
Qed.

(** C6: the counter of a fresh driver.  Whatever the arguments of the
    constructor, the driver it returns holds a counter whose first 65534
    draws are 1, 2, ..., 65534 in this order, all distinct; the 65535th
    draw is 1 again; and no draw, however late, is 0 or fails. *)
Theorem sequence_counter_cycles `{Collaborators} (path : string) (large_packets : bool)
    (socket : option Socket) (session : option Z) (d : CIPDriver) :
  __init__ path large_packets socket session = Return d ->
  draws (Z.to_nat 65534) (_sequence d) = map Some (py_range 1 65535) /\
  (forall k : Z, (0 <= k < 65534)%Z ->
     draw (Z.to_nat k) (_sequence d) = Some (k + 1)%Z) /\
  NoDup (py_range 1 65535) /\
  draw (Z.to_nat 65534) (_sequence d) = Some 1%Z /\
  (forall n : nat, exists v, draw n (_sequence d) = Some v /\ (1 <= v <= 65534)%Z).
Proof.
  intros I. rewrite (init_sequence path large_packets socket session d I).
  unfold fresh_sequence.
  split; [|split; [|split; [|split]]].
  - rewrite <- py_range_length. unfold cycle_of. apply draws_first_pass.
  - intros k K. unfold cycle_of.
    rewrite draw_first_pass by (rewrite py_range_length; lia).
    unfold py_range. rewrite count_from_nth by lia. f_equal. lia.
  - apply count_from_NoDup.
  - rewrite <- py_range_length, py_range_1_65535. apply draw_wraps.
  - intros n. unfold cycle_of.
    apply (draw_invariant (fun v => (1 <= v <= 65534)%Z)); cbn [pending saved first_pass].
    + eapply Forall_impl; [|apply count_from_bounds]. intros v. cbv beta. lia.
    + constructor.
    + discriminate.
    + left. rewrite py_range_1_65535. discriminate.
Qed.

Lemma sequence_counter_cycles_witness :
  draws (Z.to_nat 65534) (_sequence unopened_driver) = map Some (py_range 1 65535) /\
  (forall k : Z, (0 <= k < 65534)%Z ->
     draw (Z.to_nat k) (_sequence unopened_driver) = Some (k + 1)%Z) /\
  NoDup (py_range 1 65535) /\
  draw (Z.to_nat 65534) (_sequence unopened_driver) = Some 1%Z /\
  (forall n : nat,
     exists v, draw n (_sequence unopened_driver) = Some v /\ (1 <= v <= 65534)%Z).
Proof.
  apply (sequence_counter_cycles "10.20.30.100" true None None unopened_driver).
  reflexivity.
Defined.

(** ** The network parameters of the Forward Open *)

(** For a size that fits in nine bits the mask of the source, [0x01FF],
    and a sixteen-bit mask give the same field. *)
Lemma standard_mask_agrees (size : Z) :
  (0 <= size < 512)%Z ->
  net_params_standard size = Z.lor (Z.land size 0xFFFF) init_net_params.
Proof.
  intros R. unfold net_params_standard. f_equal.
  change 0x01FF%Z with (Z.ones 9). change 0xFFFF%Z with (Z.ones 16).
  rewrite !Z.land_ones by lia.
  rewrite !Z.mod_small; [reflexivity | lia | lia].
Qed.

(** On larger sizes they differ: the source keeps nine bits of the size. *)
Lemma standard_mask_is_nine_bits :
  net_params_standard 1024 = init_net_params /\
  Z.lor (Z.land 1024 0xFFFF) init_net_params <> init_net_params.
Proof. split; [reflexivity | intros E; vm_compute in E; lia]. Qed.

Section DriverProperties.

Context `{Collaborators}.


End DriverProperties.

(** ** Relations that the methods keep *)

Section Keeping.

Context `{Collaborators}.

Variable R : CIPDriver -> world -> CIPDriver -> world -> Prop.
Hypothesis R_refl : forall d w, R d w d w.
Hypothesis R_trans : forall d1 w1 d2 w2 d3 w3,
  R d1 w1 d2 w2 -> R d2 w2 d3 w3 -> R d1 w1 d3 w3.

Lemma keeps_ret {A} (a : A) : keeps R (ret a).
Proof. intros d w. apply R_refl. Qed.

Lemma keeps_raise {A} (e : exn) : keeps R (@raise A e).
Proof. intros d w. apply R_refl. Qed.

Lemma keeps_lift {A} (o : outcome A) : keeps R (lift o).
Proof. intros d w. apply R_refl. Qed.

Lemma keeps_get_self : keeps R get_self.
Proof. intros d w. apply R_refl. Qed.

Lemma keeps_bind {A B} (m : M A) (k : A -> M B) :
  keeps R m -> (forall a, keeps R (k a)) -> keeps R (bind m k).
Proof.
  intros Hm Hk d w. specialize (Hm d w). unfold bind, driver_of, world_of in *.
  destruct (m d w) as [[[a|e] d1] w1]; simpl in *; [|exact Hm].
  eapply R_trans; [exact Hm | apply Hk].
Qed.

Lemma keeps_try_except {A} (m : M A) (handler : exn -> M A) :
  keeps R m -> (forall e, keeps R (handler e)) -> keeps R (try_except m handler).
Proof.
  intros Hm Hh d w. specialize (Hm d w). unfold try_except, driver_of, world_of in *.
  destruct (m d w) as [[[a|e] d1] w1]; simpl in *; [exact Hm|].
  eapply R_trans; [exact Hm | apply Hh].
Qed.

Lemma keeps_when (b : bool) (m : M unit) : keeps R m -> keeps R (when b m).
Proof. intros Hm. destruct b; [exact Hm | apply keeps_ret]. Qed.

(** What the relation must allow: harmless updates and the calls on the
    socket that move frames. *)
Hypothesis R_update : forall f, harmless f -> keeps R (update f).
Hypothesis R_send : forall message, keeps R (sock_send message).
Hypothesis R_receive : keeps R sock_receive.

Lemma harmless_set_sequence (c : cycle) : harmless (set_sequence c).
Proof. intros d. split; reflexivity. Qed.

Lemma harmless_set_session (s : option Z) : harmless (set_session s).
Proof. intros d. split; reflexivity. Qed.

Lemma harmless_set_connection_opened (b : bool) : harmless (set_connection_opened b).
Proof. intros d. split; reflexivity. Qed.

Lemma harmless_set_target_cid (v : pyvalue) : harmless (set_target_cid v).
Proof. intros d. split; reflexivity. Qed.

Lemma harmless_set_target_is_connected (b : bool) : harmless (set_target_is_connected b).
Proof. intros d. split; reflexivity. Qed.

Lemma harmless_set_cid (v : bytes) : harmless (fun d => set_cfg (cfg_set_cid v (_cfg d)) d).
Proof. intros d. split; reflexivity. Qed.

Lemma harmless_set_vsn (v : bytes) : harmless (fun d => set_cfg (cfg_set_vsn v (_cfg d)) d).
Proof. intros d. split; reflexivity. Qed.

Lemma keeps_build (request : RequestPacket) : keeps R (build request).
Proof.
  intros d w. unfold build.
  destruct (build_request request (_target_cid d) (_session d) (cfg_context (_cfg d))
              (cfg_option (_cfg d)) (_sequence d)) as [frame seq'].
  exact (R_update (set_sequence seq') (harmless_set_sequence seq') d w).
Qed.

Ltac keeping :=
  repeat first
    [ apply keeps_ret | apply keeps_raise | apply keeps_lift | apply keeps_get_self
    | apply keeps_build | apply R_send | apply R_receive
    | apply R_update; first
        [ apply harmless_set_sequence | apply harmless_set_session
        | apply harmless_set_connection_opened | apply harmless_set_target_cid
        | apply harmless_set_target_is_connected | apply harmless_set_cid
        | apply harmless_set_vsn ]
    | assumption
    | apply keeps_when
    | apply keeps_bind; [|intros ?]
    | apply keeps_try_except; [|intros ?]
    | progress cbv beta zeta
    | match goal with
      | |- keeps _ (if ?b then _ else _) => destruct b
      | |- keeps _ (match ?x with _ => _ end) => destruct x
      end ].

Lemma keeps__send (message : bytes) : keeps R (_send message).
Proof. unfold _send. keeping. Qed.

Lemma keeps__receive : keeps R _receive.
Proof. unfold _receive. keeping. Qed.

Lemma keeps_send (request : RequestPacket) : keeps R (send request).
Proof. unfold send. pose proof keeps__send. pose proof keeps__receive. keeping. Qed.

Lemma keeps_generic_message_over (guard : M unit) (a : message_args) :
  keeps R guard -> keeps R (generic_message_over guard a).
Proof.
  intros G. unfold generic_message_over, generic_message_request.
  pose proof keeps_send. keeping.
Qed.

Lemma keeps__forward_open : keeps R _forward_open.
Proof.
  unfold _forward_open, _forward_open_over, forward_open_request.
  pose proof (fun a => keeps_generic_message_over (ret tt) a (keeps_ret tt)).
  keeping.
Qed.

Lemma keeps_with_forward_open {A} (func_name : string) (func : M A) :
  keeps R (update downgrade) -> keeps R func -> keeps R (with_forward_open func_name func).
Proof. intros D F. unfold with_forward_open. pose proof keeps__forward_open. keeping. Qed.

Lemma keeps_generic_message (a : message_args) :
  keeps R (update downgrade) -> keeps R (generic_message a).
Proof.
  intros D. apply keeps_generic_message_over.
  apply keeps_with_forward_open; [exact D | apply keeps_ret].
Qed.

Lemma keeps__register_session : keeps R _register_session.
Proof. unfold _register_session. pose proof keeps_send. keeping. Qed.

Lemma keeps__un_register_session : keeps R _un_register_session.
Proof. unfold _un_register_session. pose proof keeps_send. keeping. Qed.

Lemma keeps__forward_close : keeps R (update downgrade) -> keeps R _forward_close.
Proof.
  intros D. unfold _forward_close.
  pose proof (fun a => keeps_generic_message a D). keeping.
Qed.

Lemma keeps_close_session : keeps R (update downgrade) -> keeps R close_session.
Proof.
  intros D. unfold close_session.
  pose proof (keeps__forward_close D). pose proof keeps__un_register_session. keeping.
Qed.

Lemma keeps__list_identity : keeps R _list_identity.
Proof. unfold _list_identity. pose proof keeps_send. keeping. Qed.

Lemma keeps_get_module_info (slot : Z) :
  keeps R (update downgrade) -> keeps R (get_module_info slot).
Proof.
  intros D. unfold get_module_info.
  pose proof (fun a => keeps_generic_message a D). keeping.
Qed.

Lemma keeps_open :
  keeps R (update (set_sock (Some SocketObject))) ->
  (forall ip p, keeps R (sock_connect ip p)) ->
  keeps R urandom4 ->
  keeps R open.
Proof.
  intros S C U. unfold open. pose proof keeps__register_session.
  keeping; try apply C; keeping.
Qed.

Lemma keeps_close_socket : keeps R sock_close -> keeps R close_socket.
Proof. intros C. unfold close_socket. keeping. Qed.

Lemma keeps_collecting (errs : list exn) (m : M unit) :
  keeps R m -> keeps R (collecting errs m).
Proof. intros Hm. unfold collecting. keeping. Qed.

Lemma keeps_close :
  keeps R (update downgrade) -> keeps R sock_close -> keeps R (update reset) ->
  keeps R close.
Proof.
  intros D C U. unfold close.
  pose proof (fun errs => keeps_collecting errs _ (keeps_close_session D)).
  pose proof (fun errs => keeps_collecting errs _ (keeps_close_socket C)).
  keeping.
Qed.

(** A relation that every base action keeps is kept by every method, and
    by every sequence of calls. *)
Lemma keeps_after (m : method) :
  keeps R (update downgrade) -> keeps R sock_close -> keeps R (update reset) ->
  keeps R (update (set_sock (Some SocketObject))) ->
  (forall ip p, keeps R (sock_connect ip p)) ->
  keeps R urandom4 ->
  forall d w, R d w (fst (after m d w)) (snd (after m d w)).
Proof.
  intros D C U S K N d w. destruct m; cbn [after fst snd].
  - apply keeps_open; assumption.
  - apply keeps_close; assumption.
  - apply keeps_generic_message; assumption.
  - apply keeps_get_module_info; assumption.
  - apply keeps__list_identity.
  - apply keeps_send.
  - apply keeps__register_session.
  - apply keeps__un_register_session.
  - apply keeps__forward_open.
  - apply keeps__forward_close; assumption.
Qed.

Lemma keeps_after_all (ms : list method) :
  keeps R (update downgrade) -> keeps R sock_close -> keeps R (update reset) ->
  keeps R (update (set_sock (Some SocketObject))) ->
  (forall ip p, keeps R (sock_connect ip p)) ->
  keeps R urandom4 ->
  forall d w, R d w (fst (after_all ms d w)) (snd (after_all ms d w)).
Proof.
  intros D C U S K N. induction ms as [|m rest IH]; intros d w; cbn [after_all].
  - apply R_refl.
  - pose proof (keeps_after m D C U S K N d w) as Hm.
    destruct (after m d w) as [d' w']. cbn [fst snd] in Hm.
    eapply R_trans; [exact Hm | apply IH].
Qed.

End Keeping.

(** *** The preference *)

Lemma sock_connect_same_driver (ip : string) (p : Z) (d : CIPDriver) (w : world) :
  driver_of (sock_connect ip p d w) = d.
Proof.
  unfold sock_connect, driver_of. destruct (_sock d); [|reflexivity].
  destruct (connect_script w) as [|[m|] r]; reflexivity.
Qed.

Lemma sock_send_same_driver (message : bytes) (d : CIPDriver) (w : world) :
  driver_of (sock_send message d w) = d.
Proof.
  unfold sock_send, driver_of. destruct (_sock d); [|reflexivity].
  destruct (send_script w) as [|[m|] r]; reflexivity.
Qed.

Lemma sock_receive_same_driver (d : CIPDriver) (w : world) :
  driver_of (sock_receive d w) = d.
Proof.
  unfold sock_receive, driver_of. destruct (_sock d); [|reflexivity].
  destruct (receive_script w) as [|[m|b] r]; reflexivity.
Qed.

Lemma sock_close_same_driver (d : CIPDriver) (w : world) :
  driver_of (sock_close d w) = d.
Proof.
  unfold sock_close, driver_of. destruct (close_script w) as [|[m|] r]; reflexivity.
Qed.

Lemma urandom4_same_driver (d : CIPDriver) (w : world) : driver_of (urandom4 d w) = d.
Proof. unfold urandom4, driver_of. destruct (urandom_script w); reflexivity. Qed.

Lemma same_preference_kept_by_forward_open `{Collaborators} :
  keeps same_preference _forward_open.
Proof.
  apply keeps__forward_open; unfold same_preference.
  - reflexivity.
  - congruence.
  - intros f Hf d w. apply Hf.
  - intros message d w. now rewrite sock_send_same_driver.
  - intros d w. now rewrite sock_receive_same_driver.
Qed.

Lemma only_downgrades_refl (d : CIPDriver) (w : world) : only_downgrades d w d w.
Proof. left. reflexivity. Qed.

Lemma only_downgrades_trans (d1 : CIPDriver) (w1 : world) (d2 : CIPDriver) (w2 : world)
    (d3 : CIPDriver) (w3 : world) :
  only_downgrades d1 w1 d2 w2 -> only_downgrades d2 w2 d3 w3 -> only_downgrades d1 w1 d3 w3.
Proof.
  unfold only_downgrades.
  destruct (extended d1), (extended d2), (extended d3); intuition congruence.
Qed.

Lemma only_downgrades_same_driver {A} (m : M A) :
  (forall d w, driver_of (m d w) = d) -> keeps only_downgrades m.
Proof. intros E d w. rewrite E. left. reflexivity. Qed.

Lemma only_downgrades_update (f : CIPDriver -> CIPDriver) :
  (forall d, extended (f d) = extended d) -> keeps only_downgrades (update f).
Proof. intros E d w. left. apply E. Qed.

Lemma only_downgrades_downgrade : keeps only_downgrades (update downgrade).
Proof.
  intros d w. unfold only_downgrades. cbn.
  destruct (extended d); [right|left]; split; reflexivity.
Qed.

Section PreferenceProperties.

Context `{Collaborators}.

(** C7: the frame-size preference over the life of a driver object.
    Whatever methods are called, in whatever order and against whatever
    network, the preference afterwards is the one before, or it was
    Extended and is now Standard; in particular Standard stays Standard.
    The reported capacity is 4000 exactly while the preference is Extended
    and 500 exactly while it is Standard. *)
Theorem preference_only_downgrades (ms : list method) (d : CIPDriver) (w : world) :
  only_downgrades d w (fst (after_all ms d w)) (snd (after_all ms d w)) /\
  (extended d = false -> extended (fst (after_all ms d w)) = false) /\
  (forall d', connection_size d' = (if extended d' then 4000 else 500)%Z) /\
  (forall d', (connection_size d' = 4000%Z <-> extended d' = true) /\
              (connection_size d' = 500%Z <-> extended d' = false)).
Proof.
  assert (K : only_downgrades d w (fst (after_all ms d w)) (snd (after_all ms d w))).
  { apply keeps_after_all.
    - apply only_downgrades_refl.
    - apply only_downgrades_trans.
    - intros f Hf. apply only_downgrades_update. intros d0. apply Hf.
    - intros message. apply only_downgrades_same_driver. apply sock_send_same_driver.
    - apply only_downgrades_same_driver. apply sock_receive_same_driver.
    - apply only_downgrades_downgrade.
    - apply only_downgrades_same_driver. apply sock_close_same_driver.
    - apply only_downgrades_update. reflexivity.
    - apply only_downgrades_update. reflexivity.
    - intros ip p. apply only_downgrades_same_driver. apply sock_connect_same_driver.
    - apply only_downgrades_same_driver. apply urandom4_same_driver. }
  split; [exact K|]. split.
  - intros E. destruct K as [K|[K _]]; congruence.
  - split; intros d'; unfold connection_size; destruct (extended d');
      [reflexivity | reflexivity | |]; split; split; congruence || discriminate.
Qed.

End PreferenceProperties.

(** ** The fallback wrapper *)

Lemma prefixb_app (p s : string) : prefixb p (p ++ s) = true.
Proof.
  induction p as [|c p IH]; [reflexivity|]. simpl. now rewrite Ascii.eqb_refl.
Qed.

Lemma contains_of_prefix (needle s : string) :
  prefixb needle s = true -> contains needle s = true.
Proof. intros P. destruct s; simpl; rewrite P; reflexivity. Qed.

Lemma contains_app (needle before after : string) :
  contains needle (before ++ needle ++ after) = true.
Proof.
  induction before as [|c b IH].
  - cbn [append]. apply contains_of_prefix, prefixb_app.
  - cbn [append contains]. rewrite IH. apply orb_true_r.
Qed.

Section FallbackProperties.

Context `{Collaborators}.

(** C1: the wrapper around a connected operation [func].  It attempts
    the open once.  If the attempt succeeds the operation runs.  If it
    fails and the preference is Standard, the operation is not run and the
    wrapper raises the [ResponseError] naming it, after that one attempt.
    If it fails and the preference is Extended, the preference becomes
    Standard and the open is attempted exactly once more: on success the
    operation runs, on failure the operation is not run and the same
    [ResponseError] is raised, the preference staying Standard.  The text
    of the fault is 'Target did not connected. <name> will not be
    executed.': it says that the target did not connect and names the
    operation. *)
Theorem with_forward_open_fallback {A} (func_name : string) (func : M A)
    (d : CIPDriver) (w : world) :
  let first := _forward_open d w in
  let d1 := driver_of first in
  let w1 := world_of first in
  let second := _forward_open (downgrade d1) w1 in
  let text := ("Target did not connected. " ++ func_name ++ " will not be executed.")%string in
  let fault := Raise (ResponseError text None) in
  extended d1 = extended d /\
  contains "Target did not connected" text = true /\
  contains func_name text = true /\
  (result_of first = Return true ->
     with_forward_open func_name func d w = func d1 w1) /\
  (result_of first = Return false -> extended d = false ->
     with_forward_open func_name func d w = (fault, d1, w1)) /\
  (result_of first = Return false -> extended d = true ->
     extended (downgrade d1) = false /\
     extended (driver_of second) = false /\
     (result_of second = Return true ->
        with_forward_open func_name func d w = func (driver_of second) (world_of second)) /\
     (result_of second = Return false ->
        with_forward_open func_name func d w = (fault, driver_of second, world_of second))).
Proof.
  cbv zeta.
  pose proof (same_preference_kept_by_forward_open d w) as P1.
  pose proof (same_preference_kept_by_forward_open
                (downgrade (driver_of (_forward_open d w)))
                (world_of (_forward_open d w))) as P2.
  unfold same_preference in P1, P2.
  split; [exact P1|]. split; [reflexivity|]. split; [apply contains_app|].
  unfold with_forward_open, not_connected_msg, bind, get_self, update, ret, raise.
  unfold result_of, driver_of, world_of in *.
  destruct (_forward_open d w) as [[[[|]|e] d1] w1]; cbn [fst snd negb] in *.
  - split; [reflexivity|]. split; intros E; discriminate E.
  - split; [intros E; discriminate E|]. split.
    + intros _ E. rewrite P1, E. reflexivity.
    + intros _ E. rewrite P1, E. split; [reflexivity|]. split; [exact P2|].
      destruct (_forward_open (downgrade d1) w1) as [[[[|]|e] d2] w2]; cbn [fst snd negb] in *.
      * split; [reflexivity | intros E'; discriminate E'].
      * split; [intros E'; discriminate E' | reflexivity].
      * split; intros E'; discriminate E'.
  - split; [intros E; discriminate E|]. split; intros E; discriminate E.
Qed.

End FallbackProperties.

(** The wrapper on the bench, around an operation called [read_tag] that
    would return 7: a target that rejects both the Extended and the
    Standard Forward Open gets exactly two requests, the large one and then
    the standard one, and the operation is not run. *)
Example fallback_on_the_bench :
  let r := with_forward_open "read_tag" (ret 7%Z) (plugged_driver true) rejecting_twice in
  result_of r =
    Raise (ResponseError "Target did not connected. read_tag will not be executed." None) /\
  calls (world_of r) =
    [SockSend [x6f; x5b]; SockReceive; SockSend [x6f; x54]; SockReceive] /\
  extended (driver_of r) = false /\
  connection_size (driver_of r) = 500%Z.
Proof. lazy. repeat split. Qed.

(** With the preference already Standard there is one request and no
    retry. *)
Example no_retry_on_the_bench :
  let r := with_forward_open "read_tag" (ret 7%Z) (plugged_driver false) rejecting_twice in
  result_of r =
    Raise (ResponseError "Target did not connected. read_tag will not be executed." None) /\
  calls (world_of r) = [SockSend [x6f; x54]; SockReceive].
Proof. lazy. repeat split. Qed.

(** ** Where exceptions come from *)

Section Raising.

Context `{Collaborators}.

Lemma raises_only_ret {A} (P : exn -> Prop) (a : A) : raises_only P (ret a).
Proof. intros d w e E. discriminate E. Qed.

Lemma raises_only_get_self (P : exn -> Prop) : raises_only P get_self.
Proof. intros d w e E. discriminate E. Qed.

Lemma raises_only_update (P : exn -> Prop) (f : CIPDriver -> CIPDriver) :
  raises_only P (update f).
Proof. intros d w e E. discriminate E. Qed.

Lemma raises_only_raise {A} (P : exn -> Prop) (e : exn) : P e -> raises_only P (@raise A e).
Proof. intros Pe d w e' E. injection E as <-. exact Pe. Qed.

Lemma raises_only_lift {A} (P : exn -> Prop) (o : outcome A) :
  (forall e, o = Raise e -> P e) -> raises_only P (lift o).
Proof. intros Po d w e E. apply Po. exact E. Qed.

Lemma raises_only_bind {A B} (P : exn -> Prop) (m : M A) (k : A -> M B) :
  raises_only P m -> (forall a, raises_only P (k a)) -> raises_only P (bind m k).
Proof.
  intros Hm Hk d w e. specialize (Hm d w). unfold bind, result_of in *.
  destruct (m d w) as [[[a|e'] d1] w1]; cbn [fst] in *.
  - apply Hk.
  - intros E. injection E as <-. apply Hm. reflexivity.
Qed.

Lemma raises_only_try_except {A} (P : exn -> Prop) (m : M A) (handler : exn -> M A) :
  (forall e, raises_only P (handler e)) -> raises_only P (try_except m handler).
Proof.
  intros Hh d w e. unfold try_except, result_of.
  destruct (m d w) as [[[a|e'] d1] w1]; cbn [fst].
  - intros E. discriminate E.
  - apply Hh.
Qed.

Lemma raises_only_when (P : exn -> Prop) (b : bool) (m : M unit) :
  raises_only P m -> raises_only P (when b m).
Proof. intros Hm. destruct b; [exact Hm | apply raises_only_ret]. Qed.

Lemma raises_only_weaken {A} (P Q : exn -> Prop) (m : M A) :
  (forall e, P e -> Q e) -> raises_only P m -> raises_only Q m.
Proof. intros PQ Hm d w e E. apply PQ. exact (Hm d w e E). Qed.

Ltac raising :=
  repeat first
    [ apply raises_only_ret | apply raises_only_get_self | apply raises_only_update
    | match goal with
      | K : _ |- raises_only _ _ => solve [apply K]
      end
    | apply raises_only_when
    | apply raises_only_bind; [|intros ?]
    | progress cbv beta zeta
    | match goal with
      | |- raises_only _ (if ?b then _ else _) => destruct b
      | |- raises_only _ (match ?x with _ => _ end) => destruct x
      end ].

Lemma send_raises (request : RequestPacket) : raises_only exchange_fault (send request).
Proof.
  unfold send.
  assert (raises_only exchange_fault (build request)) as B.
  { intros d w e. unfold build, result_of.
    destruct (build_request request (_target_cid d) (_session d) (cfg_context (_cfg d))
                (cfg_option (_cfg d)) (_sequence d)) as [frame seq'] eqn:E.
    cbn [fst]. intros ->. right. right.
    exists request, (_target_cid d), (_session d), (cfg_context (_cfg d)),
      (cfg_option (_cfg d)), (_sequence d). now rewrite E. }
  assert (forall message, raises_only exchange_fault (_send message)) as S.
  { intros message. apply raises_only_try_except. intros e.
    apply raises_only_raise. left. reflexivity. }
  assert (raises_only exchange_fault _receive) as V.
  { apply raises_only_try_except. intros e. apply raises_only_raise. left. reflexivity. }
  raising.
Qed.

Lemma encode_raises (segments : list CIPSegment) (length pad : bool) :
  raises_only exchange_fault (lift (PADDED_EPATH_encode segments length pad)).
Proof.
  apply raises_only_lift. intros e E. right. left. now exists segments, length, pad.
Qed.

(** What follows the guard in [generic_message] raises only when the
    exchange itself fails: whatever the reply says is returned, not
    raised. *)
Lemma generic_message_request_raises (a : message_args) :
  raises_only exchange_fault (generic_message_request a).
Proof.
  unfold generic_message_request.
  pose proof send_raises. pose proof encode_raises.
  raising.
Qed.

Lemma returns_only_bind {A B} (Q : B -> Prop) (m : M A) (k : A -> M B) :
  (forall a, returns_only Q (k a)) -> returns_only Q (bind m k).
Proof.
  intros Hk d w b. unfold bind, result_of.
  destruct (m d w) as [[[a|e'] d1] w1]; cbn [fst].
  - apply Hk.
  - intros E. discriminate E.
Qed.

Lemma returns_only_ret {A} (Q : A -> Prop) (a : A) : Q a -> returns_only Q (ret a).
Proof. intros Qa d w a' E. injection E as <-. exact Qa. Qed.

Lemma send_returns (request : RequestPacket) :
  returns_only (fun response => exists reply, response = response_class request reply)
    (send request).
Proof.
  unfold send. apply returns_only_bind. intros reply.
  apply returns_only_ret. now exists reply.
Qed.

(** A result that [generic_message] returns carries the caller's label,
    no type, and the value and the error text of the response. *)
Lemma generic_message_request_returns (a : message_args) :
  returns_only
    (fun t => tag t = arg_name a /\ type t = None /\
              exists request reply,
                value t = resp_value (response_class request reply) /\
                error t = resp_error (response_class request reply))
    (generic_message_request a).
Proof.
  unfold generic_message_request.
  apply returns_only_bind. intros d. cbv zeta.
  apply returns_only_bind. intros kw.
  intros d0 w0 t E. unfold bind in E.
  pose proof (send_returns (if arg_connected a then generic_connected kw
                            else generic_unconnected kw) d0 w0) as S.
  unfold result_of in *.
  destruct (send _ d0 w0) as [[[response|e] d1] w1]; cbn [fst] in *; [|discriminate E].
  destruct (S response eq_refl) as [reply ->].
  injection E as <-. cbn. repeat split. eauto.
Qed.

Lemma forward_open_request_raises :
  raises_only request_fault (forward_open_request (generic_message_over (ret tt))).
Proof.
  unfold forward_open_request.
  assert (forall a, raises_only request_fault (generic_message_over (ret tt) a)) as G.
  { intros a. unfold generic_message_over.
    apply raises_only_bind; [apply raises_only_when, raises_only_ret|]. intros _.
    eapply raises_only_weaken; [|apply generic_message_request_raises].
    intros e E. left. exact E. }
  assert (forall d, raises_only request_fault (lift (net_params d))) as N.
  { intros d. apply raises_only_lift. intros e. unfold net_params, UDINT_encode, UINT_encode.
    repeat match goal with |- context [if ?b then _ else _] => destruct b end;
      intros E; try discriminate E; injection E as <-; right; left; eauto. }
  assert (forall segments length pad,
             raises_only request_fault (lift (PADDED_EPATH_encode segments length pad))) as P.
  { intros. eapply raises_only_weaken; [|apply encode_raises]. intros e E. left. exact E. }
  assert (forall v, raises_only request_fault (lift (first4 v))) as F.
  { intros v. apply raises_only_lift. intros e.
    destruct v; cbn; intros E; try discriminate E; injection E as <-; right; right; eauto. }
  raising.
Qed.

(** C10 (as amended): the guard of [_forward_open].  On a driver with no
    connection open yet, the call ends in the session-not-registered fault
    exactly when the stored session is the integer 0; it then has changed
    nothing and sent nothing.  On a driver whose connection is open the
    guard is not reached: the call returns [True] at once, whatever the
    stored session, 0 included.  A freshly constructed driver that was
    given no session holds [None], not 0, so a connected operation
    attempted before [open] passes the guard.  (The imported encoders are
    assumed not to raise this very fault themselves.) *)
Theorem session_guard_fires_on_zero_only :
  (forall segments length pad, PADDED_EPATH_encode segments length pad <> Raise guard_fault) ->
  (forall request cid session context option sequence,
      fst (build_request request cid session context option sequence) <> Raise guard_fault) ->
  (forall d w, _target_is_connected d = false ->
     (result_of (_forward_open d w) = Raise guard_fault <-> _session d = Some 0%Z) /\
     (_session d = Some 0%Z -> _forward_open d w = (Raise guard_fault, d, w))) /\
  (forall d w, _target_is_connected d = true -> _forward_open d w = (Return true, d, w)) /\
  (forall path large_packets socket d w,
     __init__ path large_packets socket None = Return d ->
     _session d = None /\ _target_is_connected d = false /\
     result_of (_forward_open d w) <> Raise guard_fault).
Proof.
  intros NE NB.
  assert (forall d w, _target_is_connected d = false ->
            (result_of (_forward_open d w) = Raise guard_fault <-> _session d = Some 0%Z) /\
            (_session d = Some 0%Z -> _forward_open d w = (Raise guard_fault, d, w))) as G.
  { intros d w C.
    assert (_session d <> Some 0%Z -> result_of (_forward_open d w) <> Raise guard_fault) as N.
    { intros S E. unfold _forward_open, _forward_open_over, bind, get_self in E.
      rewrite C in E.
      assert (result_of (forward_open_request (generic_message_over (ret tt)) d w)
              = Raise guard_fault) as E'.
      { destruct (_session d) as [[| |]|]; try exact E. now elim S. }
      destruct (forward_open_request_raises d w guard_fault E')
        as [[T|[(s & l & p & X)|(r & c & ss & x & o & q & X)]]|[[m X]|[m X]]].
      - discriminate T.
      - exact (NE s l p X).
      - exact (NB r c ss x o q X).
      - discriminate X.
      - discriminate X. }
    assert (_session d = Some 0%Z -> _forward_open d w = (Raise guard_fault, d, w)) as Z.
    { intros S. unfold _forward_open, _forward_open_over, bind, get_self.
      rewrite C, S. reflexivity. }
    split; [|exact Z]. split.
    - intros E. destruct (_session d) as [[| |]|] eqn:S; try reflexivity;
        exfalso; (apply N; [discriminate | exact E]).
    - intros S. now rewrite (Z S). }
  split; [exact G|]. split.
  { intros d w C. unfold _forward_open, _forward_open_over, bind, get_self.
    rewrite C. reflexivity. }
  intros path large_packets socket d w I. unfold __init__, obind in I.
  destruct (parse_connection_path ip_address path) as [[ip p]|e]; [|discriminate I].
  injection I as <-. cbn [_session _target_is_connected].
  split; [reflexivity|]. split; [reflexivity|].
  intros E.
  match type of E with
  | result_of (_forward_open ?d0 _) = _ =>
      destruct (G d0 w eq_refl) as [[G1 _] _]; apply G1 in E; discriminate E
  end.
Qed.

Lemma bench_encode_never_raises (e : exn) (segments : list CIPSegment) (length pad : bool) :
  @PADDED_EPATH_encode bench segments length pad <> Raise e.
Proof. discriminate. Qed.

Lemma bench_build_raises_only_ValueError (e : exn) request cid session context option sequence :
  fst (@build_request bench request cid session context option sequence) = Raise e ->
  e = ValueError "StopIteration".
Proof.
  cbn. unfold bench_build_request.
  destruct (req_type request); cbn; try discriminate.
  destruct (next sequence) as [[n|] s']; cbn; [discriminate|]. now intros [= <-].
Qed.

End Raising.

Lemma session_guard_fires_on_zero_only_witness :
  _session unopened_driver = None /\
  _target_is_connected unopened_driver = false /\
  result_of (_forward_open unopened_driver quiet) <> Raise guard_fault.
Proof.
  refine (proj2 (proj2 (@session_guard_fires_on_zero_only bench _ _))
            "10.20.30.100" true None unopened_driver quiet eq_refl).
  - intros. apply bench_encode_never_raises.
  - intros request cid session context option sequence E.
    apply bench_build_raises_only_ValueError in E. discriminate E.
Defined.

(** C10, the claim as written, fails: the session can be 0 while the
    connection is open, and the call then raises no fault.  A driver
    opens its connection, unregisters its session and fails to register a
    new one; its stored session is then 0, its connection still counts as
    open, and [_forward_open] returns [True] without a frame sent. *)
Lemma session_zero_while_connected_counterexample :
  let reached := after_all [ForwardOpen; UnRegisterSession_; RegisterSession_]
                   (plugged_driver false) accepting_then_refusing in
  _session (fst reached) = Some 0%Z /\
  _target_is_connected (fst reached) = true /\
  result_of (_forward_open (fst reached) (snd reached)) = Return true /\
  result_of (_forward_open (fst reached) (snd reached)) <> Raise guard_fault /\
  calls (world_of (_forward_open (fst reached) (snd reached))) = calls (snd reached).
Proof.
  cbv zeta. split; [reflexivity|]. split; [reflexivity|]. split; [reflexivity|].
  split; [intros E; discriminate E | reflexivity].
Qed.

(** ** [generic_message] *)

Section MessageProperties.

Context `{Collaborators}.

Lemma generic_request_expects_a_reply (a : message_args) (d : CIPDriver)
    (request : RequestPacket) :
  generic_request a d = Return request -> no_response request = false.
Proof.
  unfold generic_request, obind. destruct (arg_connected a); [now intros [= <-]|].
  destruct (arg_route_path a) as [[|]|b|[|s l]];
    try destruct (PADDED_EPATH_encode _ true true); intros E; try discriminate E;
    now injection E as <-.
Qed.

(** The part of [generic_message] after the guard: the request, the
    exchange, the [Tag]. *)
Lemma generic_message_request_eq (a : message_args) (d : CIPDriver) (w : world) :
  generic_message_request a d w =
  match generic_request a d with
  | Raise e => (Raise e, d, w)
  | Return request =>
      match send request d w with
      | (Return response, d', w') =>
          (Return (mkTag (arg_name a) (resp_value response) None (resp_error response)), d', w')
      | (Raise e, d', w') => (Raise e, d', w')
      end
  end.
Proof.
  unfold generic_message_request, generic_request, bind, get_self, lift, ret, obind.
  destruct (arg_connected a); cbn [negb].
  - now destruct (send _ d w) as [[[r|e] d'] w'].
  - destruct (arg_route_path a) as [[|]|b|[|s l]];
      try destruct (PADDED_EPATH_encode _ true true); try reflexivity;
      now destruct (send _ d w) as [[[r|e] d'] w'].
Qed.

(** [send] of a request that carries no error and expects a reply, step
    by step. *)
Lemma send_eq (request : RequestPacket) (d : CIPDriver) (w : world) :
  truthy (req_error request) = false -> no_response request = false ->
  let built := build_request request (_target_cid d) (_session d) (cfg_context (_cfg d))
                 (cfg_option (_cfg d)) (_sequence d) in
  let d2 := set_sequence (snd built) d in
  send request d w =
  match fst built with
  | Raise e => (Raise e, d2, w)
  | Return frame =>
      match result_of (sock_send frame d2 w) with
      | Raise err =>
          (Raise (CommError "failed to send message" (Some err)), d2,
           world_of (sock_send frame d2 w))
      | Return _ =>
          match result_of (sock_receive d2 (world_of (sock_send frame d2 w))) with
          | Raise err =>
              (Raise (CommError "failed to receive reply" (Some err)), d2,
               world_of (sock_receive d2 (world_of (sock_send frame d2 w))))
          | Return reply =>
              (Return (response_class request (Some reply)), d2,
               world_of (sock_receive d2 (world_of (sock_send frame d2 w))))
          end
      end
  end.
Proof.
  intros E N. cbv zeta. unfold send, bind, build, _send, _receive, try_except, raise, ret.
  rewrite E, N. cbn [negb].
  destruct (build_request request (_target_cid d) (_session d) (cfg_context (_cfg d))
              (cfg_option (_cfg d)) (_sequence d)) as [[frame|e] c]; cbn [fst snd];
    [|reflexivity].
  pose proof (sock_send_same_driver frame (set_sequence c d) w) as DS.
  unfold result_of, world_of, driver_of in *.
  destruct (sock_send frame (set_sequence c d) w) as [[[[]|err] d3] w3]; cbn [fst snd] in *;
    subst d3; [|reflexivity].
  pose proof (sock_receive_same_driver (set_sequence c d) w3) as DR.
  unfold driver_of in DR.
  destruct (sock_receive (set_sequence c d) w3) as [[[reply|err] d4] w4]; cbn [fst snd] in *;
    subst d4; reflexivity.
Qed.

(** What follows the guard, by the way each step ends. *)
Lemma generic_message_request_outcome (a : message_args) (d1 : CIPDriver) (w1 : world) :
  let tag_of (response : ResponsePacket) :=
    mkTag (arg_name a) (resp_value response) None (resp_error response) in
  match generic_request a d1 with
  | Raise e => generic_message_request a d1 w1 = (Raise e, d1, w1)
  | Return request =>
      if truthy (req_error request) then
        generic_message_request a d1 w1 =
        (Return (tag_of (response_class request None)), d1, w1)
      else
        let built := build_request request (_target_cid d1) (_session d1)
                       (cfg_context (_cfg d1)) (cfg_option (_cfg d1)) (_sequence d1) in
        let d2 := set_sequence (snd built) d1 in
        match fst built with
        | Raise e => generic_message_request a d1 w1 = (Raise e, d2, w1)
        | Return frame =>
            let sent := sock_send frame d2 w1 in
            match result_of sent with
            | Raise err =>
                generic_message_request a d1 w1 =
                (Raise (CommError "failed to send message" (Some err)), d2, world_of sent)
            | Return _ =>
                let received := sock_receive d2 (world_of sent) in
                match result_of received with
                | Raise err =>
                    generic_message_request a d1 w1 =
                    (Raise (CommError "failed to receive reply" (Some err)), d2,
                     world_of received)
                | Return reply =>
                    generic_message_request a d1 w1 =
                    (Return (tag_of (response_class request (Some reply))), d2,
                     world_of received)
                end
            end
        end
  end.
Proof.
  cbv zeta. rewrite generic_message_request_eq.
  destruct (generic_request a d1) as [request|e] eqn:GR; [|reflexivity].
  destruct (truthy (req_error request)) eqn:E.
  - unfold send, bind, ret. rewrite E. reflexivity.
  - pose proof (send_eq request d1 w1 E (generic_request_expects_a_reply a d1 request GR))
      as S. cbv zeta in S. rewrite S.
    destruct (fst (build_request request (_target_cid d1) (_session d1)
                     (cfg_context (_cfg d1)) (cfg_option (_cfg d1)) (_sequence d1)))
      as [frame|e]; [|reflexivity].
    destruct (result_of (sock_send frame _ w1)) as [[]|err]; [|reflexivity].
    destruct (result_of (sock_receive _ _)) as [reply|err]; reflexivity.
Qed.

(** C3 (as amended): what a call of [generic_message] does, in full.  A
    connected call starts with the connection guard, and raises what the
    guard raises: a Forward Open that was rejected is a [ResponseError],
    and the message is not attempted.  After the guard the call builds the
    request; it raises when the route encoder or the frame builder
    refuses, and when the socket fails to send the frame or to receive the
    reply, the last two as the [CommError] of the transport chained to the
    failure of the socket.  In every other case it returns: the [Tag]
    carries the caller's label and the value and error text of the
    response built from this request and the reply the socket delivered,
    whatever that reply says, so a failed service is data and never
    raised; a request that carries an error of its own is answered without
    an exchange. *)
Theorem generic_message_outcome (a : message_args) (d : CIPDriver) (w : world) :
  let guard := if arg_connected a then connection_guard d w else (Return tt, d, w) in
  let d1 := driver_of guard in
  let w1 := world_of guard in
  let tag_of (response : ResponsePacket) :=
    mkTag (arg_name a) (resp_value response) None (resp_error response) in
  match result_of guard with
  | Raise e => generic_message a d w = (Raise e, d1, w1)
  | Return _ =>
      match generic_request a d1 with
      | Raise e => generic_message a d w = (Raise e, d1, w1)
      | Return request =>
          if truthy (req_error request) then
            generic_message a d w = (Return (tag_of (response_class request None)), d1, w1)
          else
            let built := build_request request (_target_cid d1) (_session d1)
                           (cfg_context (_cfg d1)) (cfg_option (_cfg d1)) (_sequence d1) in
            let d2 := set_sequence (snd built) d1 in
            match fst built with
            | Raise e => generic_message a d w = (Raise e, d2, w1)
            | Return frame =>
                let sent := sock_send frame d2 w1 in
                match result_of sent with
                | Raise err =>
                    generic_message a d w =
                    (Raise (CommError "failed to send message" (Some err)), d2, world_of sent)
                | Return _ =>
                    let received := sock_receive d2 (world_of sent) in
                    match result_of received with
                    | Raise err =>
                        generic_message a d w =
                        (Raise (CommError "failed to receive reply" (Some err)), d2,
                         world_of received)
                    | Return reply =>
                        generic_message a d w =
                        (Return (tag_of (response_class request (Some reply))), d2,
                         world_of received)
                    end
                end
            end
      end
  end.
Proof.
  cbv zeta.
  unfold generic_message, generic_message_over, when, bind.
  destruct (arg_connected a).
  - unfold result_of at 1, driver_of, world_of.
    destruct (connection_guard d w) as [[[[]|e] d1] w1]; cbn [fst snd]; [|reflexivity].
    apply (generic_message_request_outcome a d1 w1).
  - cbn [result_of driver_of world_of fst snd ret]. unfold ret.
    apply (generic_message_request_outcome a d w).
Qed.

End MessageProperties.

(** C3, the claim as written, fails: with the Forward Open rejected twice
    by a target that answers every request, a connected call raises
    [ResponseError], although every send and every receive went through. *)
Lemma generic_message_raises_on_rejection :
  result_of (generic_message (read_identity true) (plugged_driver true) rejecting_twice) =
    Raise (ResponseError "Target did not connected. <lambda> will not be executed." None) /\
  calls (world_of (generic_message (read_identity true) (plugged_driver true) rejecting_twice)) =
    [SockSend [x6f; x5b]; SockReceive; SockSend [x6f; x54]; SockReceive] /\
  is_transport_fault
    (ResponseError "Target did not connected. <lambda> will not be executed." None) = false.
Proof. lazy. repeat split. Qed.

(** The same rejection of the message itself is returned as data. *)
Example failed_service_is_data :
  result_of (generic_message (read_identity false) (plugged_driver true) rejecting_once) =
    Return (mkTag "vendor" PyNone None (Some "service failed")).
Proof. lazy. reflexivity. Qed.

(** ** [close] *)

Lemma filter_is_close_snoc (l : list sock_call) (c : sock_call) :
  is_close c = false -> filter is_close (l ++ [c]) = filter is_close l.
Proof. intros E. rewrite filter_app. cbn. rewrite E. apply app_nil_r. Qed.

Section CloseProperties.

Context `{Collaborators}.

Lemma close_session_leaves_socket : keeps socket_untouched close_session.
Proof.
  apply keeps_close_session; unfold socket_untouched.
  - intros d w. split; reflexivity.
  - intros d1 w1 d2 w2 d3 w3 [A B] [C D]. split; congruence.
  - intros f Hf d w. split; [apply Hf | reflexivity].
  - intros message d w. rewrite sock_send_same_driver. split; [reflexivity|].
    unfold sock_send, world_of. destruct (_sock d); [|reflexivity].
    destruct (send_script w) as [|[m|] r]; cbn [snd calls record];
      now apply filter_is_close_snoc.
  - intros d w. rewrite sock_receive_same_driver. split; [reflexivity|].
    unfold sock_receive, world_of. destruct (_sock d); [|reflexivity].
    destruct (receive_script w) as [|[m|b] r]; cbn [snd calls record];
      now apply filter_is_close_snoc.
  - intros d w. split; reflexivity.
Qed.

Lemma collecting_eq (errs : list exn) (m : M unit) (d : CIPDriver) (w : world) :
  collecting errs m d w =
  (Return (errs ++ fault_of (m d w)), driver_of (m d w), world_of (m d w)).
Proof.
  unfold collecting, try_except, bind, ret, fault_of, result_of, driver_of, world_of.
  destruct (m d w) as [[[[]|e] d1] w1]; cbn [fst snd]; now rewrite ?app_nil_r.
Qed.

(** [close] in terms of its two guarded groups. *)
Lemma close_eq (d : CIPDriver) (w : world) :
  close d w =
  (match fault_of (close_session d w) ++
         fault_of (close_socket (driver_of (close_session d w))
                     (world_of (close_session d w))) with
   | [] => Return tt
   | e :: errs => Raise (CommError (join " - " (map str (e :: errs))) None)
   end,
   reset (driver_of (close_socket (driver_of (close_session d w))
                       (world_of (close_session d w)))),
   world_of (close_socket (driver_of (close_session d w)) (world_of (close_session d w)))).
Proof.
  unfold close, bind. rewrite collecting_eq. cbn [app]. rewrite collecting_eq.
  unfold update, ret, raise.
  destruct (fault_of (close_session d w) ++ _); reflexivity.
Qed.

Lemma close_socket_closes (d : CIPDriver) (w : world) :
  _sock d <> None ->
  calls (world_of (close_socket d w)) = calls w ++ [SockClose].
Proof.
  intros S. unfold close_socket, bind, get_self, when, sock_close, world_of.
  destruct (_sock d); [|now elim S].
  destruct (close_script w) as [|[m|] r]; reflexivity.
Qed.

Lemma close_socket_eq (d : CIPDriver) (w : world) :
  close_socket d w =
  match _sock d with
  | Some _ => sock_close d w
  | None => (Return tt, d, w)
  end.
Proof. unfold close_socket, bind, get_self, when. now destruct (_sock d). Qed.

(** The first group of [close], step by step. *)
Lemma close_session_eq (d : CIPDriver) (w : world) :
  close_session d w =
  let unregister (d1 : CIPDriver) (w1 : world) :=
    match _session d1 with
    | Some 0%Z => (Return tt, d1, w1)
    | _ => _un_register_session d1 w1
    end in
  if _target_is_connected d then
    match _forward_close d w with
    | (Return _, d1, w1) => unregister d1 w1
    | (Raise e, d1, w1) => (Raise e, d1, w1)
    end
  else unregister d w.
Proof.
  cbv zeta. unfold close_session, bind, get_self, when, ret.
  destruct (_target_is_connected d).
  - destruct (_forward_close d w) as [[[b|e] d1] w1]; [|reflexivity].
    now destruct (_session d1) as [[| |]|].
  - now destruct (_session d) as [[| |]|].
Qed.

(** C2 (as amended): [close] runs two guarded groups.  The first is
    forward-close, when a connection is open, followed by
    unregister-session: the unregister is attempted exactly when the
    forward-close raised nothing (or was not due) and the stored session
    is not 0, and an exception of forward-close ends the group, so that
    nothing is sent after it.  The group adds at most one fault.  The
    second, closing the socket, is attempted whenever there is a socket,
    whatever happened before.  [close] is these steps and nothing else: it
    leaves the network as the last step left it, the handle released and
    the state reset on every path, and it returns when no fault was
    collected and otherwise raises one [CommError] joining the collected
    messages with [" - "].  On a driver that is not connected, holds a
    session and a socket, the unregister frame goes out and the socket is
    closed after it. *)
Theorem close_collects_by_group (d : CIPDriver) (w : world) :
  let connected := _target_is_connected d in
  let forward_close := _forward_close d w in
  let forward_close_fault := if connected then fault_of forward_close else [] in
  let d1 := if connected then driver_of forward_close else d in
  let w1 := if connected then world_of forward_close else w in
  let registered := match _session d1 with Some 0%Z => false | _ => true end in
  let attempted := match forward_close_fault with [] => registered | _ :: _ => false end in
  let unregister := _un_register_session d1 w1 in
  let first_group := if attempted then fault_of unregister else forward_close_fault in
  let d2 := if attempted then driver_of unregister else d1 in
  let w2 := if attempted then world_of unregister else w1 in
  let has_socket := match _sock d with Some _ => true | None => false end in
  let socket_close := sock_close d2 w2 in
  let second_group := if has_socket then fault_of socket_close else [] in
  let w3 := if has_socket then world_of socket_close else w2 in
  let collected := first_group ++ second_group in
  close d w =
    (match collected with
     | [] => Return tt
     | e :: errs => Raise (CommError (join " - " (map str (e :: errs))) None)
     end, reset d2, w3) /\
  (_sock (reset d2) = None /\
   _target_is_connected (reset d2) = false /\
   _session (reset d2) = Some 0%Z /\
   _connection_opened (reset d2) = false) /\
  (has_socket = true ->
   calls (world_of (close d w)) = calls w2 ++ [SockClose] /\
   filter is_close (calls (world_of (close d w))) = filter is_close (calls w) ++ [SockClose]) /\
  (List.length first_group <= 1)%nat /\ (List.length collected <= 2)%nat /\
  (connected = true -> forall e, result_of forward_close = Raise e ->
   attempted = false /\ first_group = [e] /\
   calls (world_of (close d w))
   = calls (world_of forward_close) ++ (if has_socket then [SockClose] else [])) /\
  (connected = false -> registered = true ->
   forall s frame c,
     _sock d = Some s ->
     build_request unregister_session (_target_cid d) (_session d) (cfg_context (_cfg d))
       (cfg_option (_cfg d)) (_sequence d) = (Return frame, c) ->
     calls (world_of (close d w)) = calls w ++ [SockSend frame; SockClose]).
Proof.
  cbv zeta.
  pose proof (close_session_leaves_socket d w) as [KS KF].
  pose proof (close_session_eq d w) as CS. cbv zeta in CS.
  assert (Hcalls : forall d' w', _sock d' <> None ->
            calls (world_of (sock_close d' w')) = calls w' ++ [SockClose]).
  { intros d' w' _. unfold sock_close, world_of.
    destruct (close_script w') as [|[m|] r]; reflexivity. }
  (* the first group, as the statement words it *)
  set (connected := _target_is_connected d) in *.
  set (d1 := if connected then driver_of (_forward_close d w) else d).
  set (w1 := if connected then world_of (_forward_close d w) else w).
  set (ff := if connected then fault_of (_forward_close d w) else []).
  set (attempted := match ff with
                    | [] => match _session d1 with Some 0%Z => false | _ => true end
                    | _ :: _ => false
                    end).
  set (first_group := if attempted then fault_of (_un_register_session d1 w1) else ff).
  set (d2 := if attempted then driver_of (_un_register_session d1 w1) else d1).
  set (w2 := if attempted then world_of (_un_register_session d1 w1) else w1).
  assert (G : fault_of (close_session d w) = first_group /\
              driver_of (close_session d w) = d2 /\
              world_of (close_session d w) = w2 /\
              (List.length first_group <= 1)%nat).
  { rewrite CS. subst first_group d2 w2 attempted ff d1 w1.
    destruct connected.
    - destruct (_forward_close d w) as [[[b|e] dd] ww];
        unfold fault_of, result_of, driver_of, world_of; cbn [fst snd].
      + destruct (_session dd) as [[| |]|]; cbn [fst snd];
          try (destruct (_un_register_session dd ww) as [[[u|e] d3] w3]);
          cbn; repeat split; lia.
      + cbn. repeat split; lia.
    - unfold fault_of, result_of, driver_of, world_of; cbn [fst snd].
      destruct (_session d) as [[| |]|]; cbn [fst snd];
        try (destruct (_un_register_session d w) as [[[u|e] d3] w3]);
        cbn; repeat split; lia. }
  destruct G as (G1 & G2 & G3 & G4).
  assert (S2 : _sock d2 = _sock d) by (rewrite <- G2; exact KS).
  assert (E : close d w =
              (match first_group ++
                     (if match _sock d with Some _ => true | None => false end
                      then fault_of (sock_close d2 w2) else []) with
               | [] => Return tt
               | e :: errs => Raise (CommError (join " - " (map str (e :: errs))) None)
               end, reset d2,
               if match _sock d with Some _ => true | None => false end
               then world_of (sock_close d2 w2) else w2)).
  { rewrite close_eq, G1, G2, G3, close_socket_eq, S2.
    destruct (_sock d).
    - rewrite sock_close_same_driver. reflexivity.
    - unfold fault_of. cbn. reflexivity. }
  assert (W : world_of (close d w) =
              if match _sock d with Some _ => true | None => false end
              then world_of (sock_close d2 w2) else w2) by (rewrite E; reflexivity).
  split; [exact E|]. split; [repeat split|]. split; [|split; [exact G4|split; [|split]]].
  - intros HS. rewrite W, HS.
    assert (C : calls (world_of (sock_close d2 w2)) = calls w2 ++ [SockClose]).
    { apply Hcalls. rewrite S2. destruct (_sock d); [discriminate | discriminate HS]. }
    split; [exact C|]. rewrite C, filter_app, <- G3, KF. reflexivity.
  - rewrite length_app.
    assert (List.length (if match _sock d with Some _ => true | None => false end
                         then fault_of (sock_close d2 w2) else []) <= 1)%nat.
    { destruct (match _sock d with Some _ => true | None => false end); [|cbn; lia].
      unfold fault_of. destruct (result_of (sock_close d2 w2)); cbn; lia. }
    lia.
  - intros C e R. rewrite W.
    assert (F : fault_of (_forward_close d w) = [e]) by (unfold fault_of; now rewrite R).
    assert (SF : _sock (driver_of (_forward_close d w)) = _sock d).
    { rewrite <- KS, CS, C. unfold result_of, driver_of in *.
      destruct (_forward_close d w) as [[[b|e'] dd] ww]; cbn [fst snd] in *;
        [discriminate R | reflexivity]. }
    clear E W G1 G2 G3 G4 S2 CS.
    subst first_group d2 w2 attempted ff d1 w1. rewrite C, F. cbn iota.
    split; [reflexivity|]. split; [reflexivity|].
    destruct (_sock d) eqn:SD.
    + rewrite Hcalls; [reflexivity|]. rewrite SF. discriminate.
    + now rewrite app_nil_r.
  - subst first_group d2 w2 attempted ff d1 w1.
    intros C R s frame c SD B. rewrite W. clear E W G1 G2 G3 G4 S2 CS.
    rewrite C in R |- *. cbn iota in R |- *. rewrite R, SD.
    assert (U : world_of (_un_register_session d w) =
                mkWorld (calls w ++ [SockSend frame]) (connect_script w) (tl (send_script w))
                  (receive_script w) (close_script w) (urandom_script w) /\
                _sock (driver_of (_un_register_session d w)) = Some s).
    { unfold _un_register_session, send, bind, build, _send, try_except, sock_send, update,
        raise, ret, world_of, driver_of, record.
      cbn [unregister_session req_error no_response truthy negb]. rewrite B.
      cbn [_sock set_sequence]. rewrite SD.
      destruct (send_script w) as [|[m|] r]; cbn; rewrite ?SD; split; reflexivity. }
    destruct U as [U1 U2].
    rewrite Hcalls by (rewrite U2; discriminate).
    rewrite U1. cbn [calls]. rewrite <- app_assoc. reflexivity.
Qed.

(** A driver without a socket whose stored session is not 0: [close]
    tries to unregister, which cannot be sent. *)
Lemma close_without_socket (d : CIPDriver) (w : world) :
  _sock d = None -> _target_is_connected d = false -> _session d <> Some 0%Z ->
  exists msg,
    result_of (close d w) = Raise (CommError msg None) /\
    world_of (close d w) = w /\
    (msg = "failed to send message" \/ exists e, codec_raised e /\ msg = str e).
Proof.
  intros S C N. rewrite close_eq.
  assert (exists e, close_session d w =
                    (Raise e, set_sequence
                                (snd (build_request unregister_session (_target_cid d) (_session d)
                                        (cfg_context (_cfg d)) (cfg_option (_cfg d)) (_sequence d))) d, w)
                    /\ (str e = "failed to send message" \/ codec_raised e)) as (e & E & K).
  { assert (close_session d w = _un_register_session d w) as ->.
    { unfold close_session, bind, get_self, when, ret. rewrite C.
      destruct (_session d) as [[| |]|]; try reflexivity. now elim N. }
    unfold _un_register_session, send, bind, build.
    cbn [unregister_session req_error truthy negb].
    destruct (build_request unregister_session (_target_cid d) (_session d)
                (cfg_context (_cfg d)) (cfg_option (_cfg d)) (_sequence d))
      as [[frame|e] c] eqn:B; cbn [snd].
    - unfold _send, try_except, sock_send, raise. cbn [_sock set_sequence]. rewrite S.
      eexists. split; [reflexivity | left; reflexivity].
    - exists e. split; [reflexivity|]. right. right.
      exists unregister_session, (_target_cid d), (_session d), (cfg_context (_cfg d)),
        (cfg_option (_cfg d)), (_sequence d). now rewrite B. }
  rewrite E. unfold driver_of, world_of, result_of, fault_of. cbn [fst snd].
  unfold close_socket, bind, get_self, when. cbn [_sock set_sequence]. rewrite S.
  cbn. exists (str e). split; [reflexivity|]. split; [reflexivity|].
  destruct K as [K|K]; [left; exact K | right; exists e; split; [exact K | reflexivity]].
Qed.

(** C5 fails on the code: a driver built without a socket and without a
    session, on which [open] was never called, holds [None] as its
    session, which is not 0; [close] therefore tries to unregister and ends
    in a [CommError].  Nothing reaches the wire, since there is no socket
    to send on. *)
Theorem close_before_open_raises (path : string) (large_packets : bool)
    (d : CIPDriver) (w : world) :
  __init__ path large_packets None None = Return d ->
  exists msg,
    result_of (close d w) = Raise (CommError msg None) /\
    world_of (close d w) = w /\
    (msg = "failed to send message" \/ exists e, codec_raised e /\ msg = str e).
Proof.
  intros I. unfold __init__, obind in I.
  destruct (parse_connection_path ip_address path) as [[ip p]|e]; [|discriminate I].
  injection I as <-. apply close_without_socket; [reflexivity | reflexivity | discriminate].
Qed.

End CloseProperties.

Lemma close_before_open_raises_witness :
  exists msg,
    result_of (close unopened_driver quiet) = Raise (CommError msg None) /\
    world_of (close unopened_driver quiet) = quiet /\
    (msg = "failed to send message" \/ exists e, codec_raised e /\ msg = str e).
Proof.
  exact (@close_before_open_raises bench "10.20.30.100" true unopened_driver quiet eq_refl).
Defined.

(** On the bench: [CIPDriver('10.20.30.100').close()]. *)
Example close_before_open_on_the_bench :
  result_of (close unopened_driver quiet) = Raise (CommError "failed to send message" None) /\
  calls (world_of (close unopened_driver quiet)) = [].
Proof. lazy. split; reflexivity. Qed.

(** C2, the claim as written, fails: on a link where the reply to the
    forward-close never arrives and no further frame can be sent, both
    forward-close and unregister fail, yet [close] never attempts the
    unregister, and its aggregate fault carries the forward-close message
    only.  Stepwise collection would have carried both. *)
Lemma close_skips_unregister_counterexample :
  result_of (close connected_driver dropping) =
    Raise (CommError "failed to receive reply" None) /\
  contains "failed to send message" "failed to receive reply" = false /\
  calls (world_of (close connected_driver dropping)) =
    [SockSend [x6f; x4e]; SockReceive; SockClose] /\
  result_of (_un_register_session (driver_of (_forward_close connected_driver dropping))
               (world_of (_forward_close connected_driver dropping))) =
    Raise (CommError "failed to send message" (Some (OSError "broken pipe"))) /\
  result_of (close_stepwise connected_driver dropping) =
    Raise (CommError "failed to receive reply - failed to send message" None) /\
  _sock (driver_of (close connected_driver dropping)) = None.
Proof. lazy. repeat split. Qed.

(** On the bench: a plugged driver that holds a session and has no
    connection open sends the unregister frame, then closes the socket. *)
Example close_unregisters_on_the_bench :
  result_of (close (plugged_driver true) quiet) = Return tt /\
  calls (world_of (close (plugged_driver true) quiet)) = [SockSend [x66]; SockClose].
Proof. split; reflexivity. Qed.

(** * Further properties of the code *)

(** ** The sequence counter at every draw *)

Lemma draw_replay (k : nat) : forall rest all,
  (k < List.length rest)%nat -> draw k (mkCycle rest all false) = nth_error rest k.
Proof.
  induction k as [|k IH]; intros rest all L; destruct rest as [|x r]; simpl in L; try lia.
  - reflexivity.
  - cbn [draw next pending first_pass snd]. apply IH. lia.
Qed.

Lemma advance_replay (rest : list Z) : forall all,
  advance (List.length rest) (mkCycle rest all false) = mkCycle [] all false.
Proof.
  induction rest as [|x r IH]; intros all; [reflexivity|].
  cbn [List.length advance next pending first_pass saved snd]. apply IH.
Qed.

Lemma draw_restart (k : nat) (x : Z) (r : list Z) (fp : bool) :
  (k < List.length (x :: r))%nat ->
  draw k (mkCycle [] (x :: r) fp) = nth_error (x :: r) k.
Proof.
  intros L. destruct k as [|k]; [reflexivity|].
  cbn [draw next pending saved snd nth_error]. apply draw_replay. simpl in L. lia.
Qed.

Lemma advance_restart (x : Z) (r : list Z) (fp : bool) :
  advance (List.length (x :: r)) (mkCycle [] (x :: r) fp) = mkCycle [] (x :: r) false.
Proof. cbn [List.length advance next pending saved snd]. apply advance_replay. Qed.

(** Once the first pass is over, the counter replays the saved list for
    ever. *)
Lemma draw_saved (x : Z) (r : list Z) (n : nat) : forall fp,
  draw n (mkCycle [] (x :: r) fp) = nth_error (x :: r) (n mod List.length (x :: r)).
Proof.
  induction n as [n IH] using lt_wf_ind. intros fp.
  destruct (Nat.lt_ge_cases n (List.length (x :: r))) as [L|G].
  - rewrite Nat.mod_small by assumption. now apply draw_restart.
  - replace n with (List.length (x :: r) + (n - List.length (x :: r)))%nat at 1 by lia.
    rewrite draw_after, advance_restart.
    rewrite IH by (simpl in *; lia).
    f_equal.
    replace n with ((n - List.length (x :: r)) + 1 * List.length (x :: r))%nat at 2 by lia.
    rewrite Nat.Div0.mod_add. reflexivity.
Qed.

(** [itertools.cycle] over a non-empty list: the [n]-th draw is the
    element at [n] modulo the length. *)
Lemma draw_cycle_of (l : list Z) (n : nat) :
  l <> [] -> draw n (cycle_of l) = nth_error l (n mod List.length l).
Proof.
  intros NE. destruct l as [|x r]; [now elim NE|].
  destruct (Nat.lt_ge_cases n (List.length (x :: r))) as [L|G].
  - rewrite Nat.mod_small by assumption. now apply draw_first_pass.
  - replace n with (List.length (x :: r) + (n - List.length (x :: r)))%nat at 1 by lia.
    rewrite draw_after. unfold cycle_of. rewrite advance_first_pass.
    cbn [app]. rewrite draw_saved. f_equal.
    replace n with ((n - List.length (x :: r)) + 1 * List.length (x :: r))%nat at 2 by lia.
    rewrite Nat.Div0.mod_add. reflexivity.
Qed.

(** X1: the counter of a fresh driver at every draw.  Counting from 0, the
    [n]-th draw is [1 + n mod 65534]; so the counter has period 65534, and
    two draws give the same value exactly when they are a multiple of 65534
    apart. *)
Theorem sequence_counter_closed_form :
  (forall n : nat, draw n fresh_sequence = Some (1 + Z.of_nat n mod 65534)%Z) /\
  (forall n : nat, draw (n + Z.to_nat 65534) fresh_sequence = draw n fresh_sequence) /\
  (forall n m : nat, draw n fresh_sequence = draw m fresh_sequence <->
                     (Z.of_nat n mod 65534 = Z.of_nat m mod 65534)%Z).
Proof.
  assert (F : forall n : nat, draw n fresh_sequence = Some (1 + Z.of_nat n mod 65534)%Z).
  { intros n. unfold fresh_sequence.
    rewrite draw_cycle_of by (rewrite py_range_1_65535; discriminate).
    rewrite py_range_length. unfold py_range.
    rewrite count_from_nth.
    - f_equal. f_equal. rewrite Nat2Z.inj_mod. rewrite Z2Nat.id by lia. reflexivity.
    - apply Nat.mod_upper_bound. lia. }
  split; [exact F|]. split.
  - intros n. rewrite !F. f_equal. f_equal.
    rewrite Nat2Z.inj_add, Z2Nat.id by lia.
    replace (Z.of_nat n + 65534)%Z with (Z.of_nat n + 1 * 65534)%Z by lia.
    apply Z.mod_add. lia.
  - intros n m. rewrite !F. split.
    + intros E. assert (E' : (1 + Z.of_nat n mod 65534 = 1 + Z.of_nat m mod 65534)%Z) by congruence. clear E. lia.
    + intros ->. reflexivity.
Qed.

(** ** What an exchange leaves alone *)

Lemma sequence_only_refl (d : CIPDriver) (w : world) : sequence_only d w d w.
Proof. unfold sequence_only. now destruct d. Qed.

Lemma sequence_only_trans (d1 : CIPDriver) (w1 : world) (d2 : CIPDriver) (w2 : world)
    (d3 : CIPDriver) (w3 : world) :
  sequence_only d1 w1 d2 w2 -> sequence_only d2 w2 d3 w3 -> sequence_only d1 w1 d3 w3.
Proof.
  unfold sequence_only. intros E12 E23.
  destruct d1, d2, d3. unfold set_sequence in *. cbn in *. congruence.
Qed.

Lemma sequence_only_same_driver {A} (m : M A) :
  (forall d w, driver_of (m d w) = d) -> keeps sequence_only m.
Proof. intros E d w. unfold sequence_only. rewrite (E d w). now destruct d. Qed.

Ltac framing R_refl R_trans :=
  repeat first
    [ apply (keeps_ret _ R_refl) | apply (keeps_raise _ R_refl) | apply (keeps_lift _ R_refl)
    | apply (keeps_get_self _ R_refl)
    | assumption
    | match goal with K : _ |- keeps _ _ => solve [apply K | apply K; reflexivity] end
    | apply (keeps_when _ R_refl)
    | apply (keeps_bind _ R_trans); [|intros ?]
    | apply (keeps_try_except _ R_trans); [|intros ?]
    | progress cbv beta zeta
    | match goal with
      | |- keeps _ (if ?b then _ else _) => destruct b
      | |- keeps _ (match ?x with _ => _ end) => destruct x
      end ].

Section Exchange.

Context `{Collaborators}.

Lemma sequence_only_build (request : RequestPacket) : keeps sequence_only (build request).
Proof.
  intros d w. unfold build.
  destruct (build_request request (_target_cid d) (_session d) (cfg_context (_cfg d))
              (cfg_option (_cfg d)) (_sequence d)) as [frame seq'].
  reflexivity.
Qed.

Lemma sequence_only_send (request : RequestPacket) : keeps sequence_only (send request).
Proof.
  pose proof (sequence_only_build request).
  pose proof (fun m => sequence_only_same_driver _ (sock_send_same_driver m)).
  pose proof (sequence_only_same_driver _ sock_receive_same_driver).
  unfold send, _send, _receive. framing sequence_only_refl sequence_only_trans.
Qed.

Lemma sequence_only_generic_message_request (a : message_args) :
  keeps sequence_only (generic_message_request a).
Proof.
  pose proof sequence_only_send.
  unfold generic_message_request. framing sequence_only_refl sequence_only_trans.
Qed.

(** X2: an exchange moves nothing of the driver but its sequence counter:
    after [send], whether it returned or raised, the socket handle, the
    session, the connection flags, the target connection id and the
    configuration are what they were. *)
Theorem send_moves_only_the_sequence (request : RequestPacket) (d : CIPDriver) (w : world) :
  driver_of (send request d w) = set_sequence (_sequence (driver_of (send request d w))) d.
Proof. apply sequence_only_send. Qed.

End Exchange.

(** ** The Forward Open *)

Section ForwardOpenProperties.

Context `{Collaborators}.

Lemma unconnected_message_over (guard : M unit) (a : message_args) (d : CIPDriver) (w : world) :
  arg_connected a = false -> generic_message_over guard a d w = generic_message_request a d w.
Proof. intros U. unfold generic_message_over. rewrite U. reflexivity. Qed.

(** What the request of [_forward_open] leaves behind: either it returned
    [True] and set the connection id and the flag, or only the sequence
    counter may have moved. *)
Lemma forward_open_request_cases (d : CIPDriver) (w : world) :
  let r := forward_open_request (generic_message_over (ret tt)) d w in
  (result_of r = Return true /\
   exists c cid, driver_of r = set_target_is_connected true (set_target_cid cid (set_sequence c d)))
  \/ (result_of r <> Return true /\ sequence_only d w (driver_of r) (world_of r)).
Proof.
  unfold forward_open_request, bind, get_self, lift.
  destruct (net_params d) as [np|e];
    [|right; split; [discriminate | apply sequence_only_refl]].
  destruct (PADDED_EPATH_encode _ true false) as [rp|e];
    [|right; split; [discriminate | apply sequence_only_refl]].
  match goal with
  | |- context [generic_message_over ?g ?a d w] =>
      rewrite (unconnected_message_over g a d w eq_refl);
      pose proof (sequence_only_generic_message_request a d w) as S;
      destruct (generic_message_request a d w) as [[[t|e] d1] w1]
  end; unfold driver_of, world_of, result_of in *; cbn [fst snd] in *;
    [|right; split; [discriminate | exact S]].
  destruct (Tag_bool t); [|right; split; [discriminate | exact S]].
  destruct (first4 (value t)) as [cid|e]; [|right; split; [discriminate | exact S]].
  left. cbn. split; [reflexivity|].
  exists (_sequence d1), cid. unfold sequence_only in S. rewrite S at 1. reflexivity.
Qed.

Lemma _forward_open_eq (d : CIPDriver) (w : world) :
  _forward_open d w =
  if _target_is_connected d then (Return true, d, w)
  else if match _session d with Some 0%Z => true | _ => false end
       then (Raise (CommError session_not_registered None), d, w)
       else forward_open_request (generic_message_over (ret tt)) d w.
Proof.
  unfold _forward_open, _forward_open_over, bind, get_self.
  destruct (_target_is_connected d); [reflexivity|].
  now destruct (match _session d with Some 0%Z => true | _ => false end).
Qed.

Lemma _forward_open_cases (d : CIPDriver) (w : world) :
  let r := _forward_open d w in
  (_target_is_connected d = true /\ r = (Return true, d, w))
  \/ (_target_is_connected d = false /\
      ((result_of r = Return true /\
        exists c cid,
          driver_of r = set_target_is_connected true (set_target_cid cid (set_sequence c d)))
       \/ (result_of r <> Return true /\ sequence_only d w (driver_of r) (world_of r)))).
Proof.
  cbv zeta. rewrite _forward_open_eq.
  destruct (_target_is_connected d) eqn:T; [left; split; reflexivity|].
  right. split; [reflexivity|].
  destruct (match _session d with Some 0%Z => true | _ => false end).
  - right. split; [intros F; discriminate F | apply sequence_only_refl].
  - apply forward_open_request_cases.
Qed.

(** X3: the connection flag tells how [_forward_open] ended.  After the
    call the driver is marked connected exactly when the call returned
    [True]; and when it returned [False] or raised, nothing of the driver
    moved but the sequence counter, so the target connection id and the
    frame-size preference are what they were. *)
Theorem forward_open_outcome (d : CIPDriver) (w : world) :
  (_target_is_connected (driver_of (_forward_open d w)) = true <->
   result_of (_forward_open d w) = Return true) /\
  (result_of (_forward_open d w) <> Return true ->
   sequence_only d w (driver_of (_forward_open d w)) (world_of (_forward_open d w))).
Proof.
  destruct (_forward_open_cases d w) as [[T E]|[T [[E [c [cid D]]]|[E S]]]]; cbv zeta in *.
  - rewrite E. cbn. split; [now split | intros N; now elim N].
  - rewrite D, E. cbn. split; [now split | intros N; now elim N].
  - split; [|intros _; exact S].
    unfold sequence_only in S. rewrite S. cbn [set_sequence _target_is_connected].
    rewrite T. split; [intros F; discriminate F | intros R; now elim E].
Qed.

(** X4: a connection is opened once.  After a [_forward_open] that
    returned [True], every further [_forward_open] returns [True] at once:
    it sends nothing and changes nothing. *)
Theorem forward_open_is_memoized (d : CIPDriver) (w : world) :
  result_of (_forward_open d w) = Return true ->
  forall w', _forward_open (driver_of (_forward_open d w)) w'
             = (Return true, driver_of (_forward_open d w), w').
Proof.
  intros R w'.
  assert (T : _target_is_connected (driver_of (_forward_open d w)) = true).
  { destruct (_forward_open_cases d w) as [[T E]|[T [[E [c [cid D]]]|[E S]]]]; cbv zeta in *.
    - rewrite E. exact T.
    - rewrite D. reflexivity.
    - now elim E. }
  rewrite _forward_open_eq, T. reflexivity.
Qed.

(** X5: [_forward_open] sends its request through
    [generic_message(connected=False)], and an unconnected message does not
    come back to the Forward Open: the method is the same whether its
    request goes through the guarded [generic_message] or straight to the
    exchange. *)
Theorem forward_open_goes_through_generic_message (d : CIPDriver) (w : world) :
  _forward_open d w = _forward_open_over generic_message d w.
Proof.
  unfold _forward_open, _forward_open_over, bind, get_self.
  destruct (_target_is_connected d); [reflexivity|].
  destruct (match _session d with Some 0%Z => true | _ => false end); [reflexivity|].
  unfold forward_open_request, bind, get_self, lift.
  destruct (net_params d) as [np|e]; [|reflexivity].
  destruct (PADDED_EPATH_encode _ true false) as [rp|e]; [|reflexivity].
  unfold generic_message.
  rewrite !unconnected_message_over by reflexivity. reflexivity.
Qed.

(** X6: a message that needs no connection opens none.  With
    [connected=False], [generic_message] is the bare exchange: whatever the
    state of the driver, afterwards only its sequence counter may have
    moved. *)
Theorem unconnected_message_opens_nothing (a : message_args) (d : CIPDriver) (w : world) :
  arg_connected a = false ->
  generic_message a d w = generic_message_request a d w /\
  sequence_only d w (driver_of (generic_message a d w)) (world_of (generic_message a d w)).
Proof.
  intros U. unfold generic_message. rewrite unconnected_message_over by exact U.
  split; [reflexivity | apply sequence_only_generic_message_request].
Qed.

(** X7: once the connection is open, a connected message is one exchange:
    the Forward Open is not sent again, and the driver keeps everything
    but its sequence counter, the frame-size preference included. *)
Theorem connected_message_on_open_connection (a : message_args) (d : CIPDriver) (w : world) :
  _target_is_connected d = true ->
  generic_message a d w = generic_message_request a d w /\
  sequence_only d w (driver_of (generic_message a d w)) (world_of (generic_message a d w)).
Proof.
  intros T.
  assert (E : generic_message a d w = generic_message_request a d w).
  { unfold generic_message, generic_message_over, connection_guard, with_forward_open,
      _forward_open, _forward_open_over, when.
    destruct (arg_connected a); [|reflexivity].
    unfold bind, get_self, ret. rewrite T. reflexivity. }
  rewrite E. split; [reflexivity | apply sequence_only_generic_message_request].
Qed.

End ForwardOpenProperties.

Lemma forward_open_is_memoized_witness :
  _forward_open
    (driver_of (_forward_open (plugged_driver false)
                  (mkWorld [] [] [] [inr [x00; x01; x02; x03; x04]] [] []))) rejecting_once
  = (Return true,
     driver_of (_forward_open (plugged_driver false)
                  (mkWorld [] [] [] [inr [x00; x01; x02; x03; x04]] [] [])), rejecting_once).
Proof. apply (forward_open_is_memoized (plugged_driver false)). reflexivity. Defined.

Lemma unconnected_message_opens_nothing_witness :
  generic_message (read_identity false) (plugged_driver true) rejecting_once
  = generic_message_request (read_identity false) (plugged_driver true) rejecting_once /\
  sequence_only (plugged_driver true) rejecting_once
    (driver_of (generic_message (read_identity false) (plugged_driver true) rejecting_once))
    (world_of (generic_message (read_identity false) (plugged_driver true) rejecting_once)).
Proof. apply (unconnected_message_opens_nothing (read_identity false)). reflexivity. Defined.

Lemma connected_message_on_open_connection_witness :
  generic_message (read_identity true) connected_driver rejecting_once
  = generic_message_request (read_identity true) connected_driver rejecting_once /\
  sequence_only connected_driver rejecting_once
    (driver_of (generic_message (read_identity true) connected_driver rejecting_once))
    (world_of (generic_message (read_identity true) connected_driver rejecting_once)).
Proof. apply (connected_message_on_open_connection (read_identity true)). reflexivity. Defined.

(** ** [open] and the session *)

Lemma session_only_refl (d : CIPDriver) (w : world) : session_only d w d w.
Proof. unfold session_only. now destruct d. Qed.

Lemma session_only_trans (d1 : CIPDriver) (w1 : world) (d2 : CIPDriver) (w2 : world)
    (d3 : CIPDriver) (w3 : world) :
  session_only d1 w1 d2 w2 -> session_only d2 w2 d3 w3 -> session_only d1 w1 d3 w3.
Proof.
  unfold session_only. intros E12 E23.
  destruct d1, d2, d3. unfold set_session, set_sequence in *. cbn in *. congruence.
Qed.

Lemma session_only_of_sequence_only {A} (m : M A) :
  keeps sequence_only m -> keeps session_only m.
Proof.
  intros K d w. specialize (K d w). unfold sequence_only, session_only in *.
  destruct (driver_of (m d w)) as [q s x o c t g], d.
  unfold set_session, set_sequence in *. cbn in *. congruence.
Qed.

Lemma session_only_set_session (s : option Z) : keeps session_only (update (set_session s)).
Proof. intros d w. unfold session_only. now destruct d. Qed.

Section OpenProperties.

Context `{Collaborators}.

Lemma session_only__register_session : keeps session_only _register_session.
Proof.
  pose proof (fun r => session_only_of_sequence_only _ (sequence_only_send r)).
  pose proof session_only_set_session.
  unfold _register_session. framing session_only_refl session_only_trans.
Qed.

Lemma session_only__un_register_session : keeps session_only _un_register_session.
Proof.
  pose proof (fun r => session_only_of_sequence_only _ (sequence_only_send r)).
  pose proof session_only_set_session.
  unfold _un_register_session. framing session_only_refl session_only_trans.
Qed.

(** What [_register_session] returns is what it leaves in [_session],
    unless the target did not answer the registration: then it returns
    [None] and leaves 0. *)
Lemma _register_session_result (d : CIPDriver) (w : world) :
  match result_of (_register_session d w) with
  | Return (Some s) => _session (driver_of (_register_session d w)) = Some s
  | Return None =>
      _session (driver_of (_register_session d w)) = Some 0%Z \/
      _session (driver_of (_register_session d w)) = None
  | Raise _ => True
  end.
Proof.
  unfold _register_session, bind, get_self, update, ret.
  destruct (match _session d with Some s => negb (s =? 0)%Z | None => false end) eqn:G.
  - cbn. destruct (_session d); [reflexivity | discriminate G].
  - pose proof (sequence_only_send (register_session (cfg_protocol_version (_cfg (set_session (Some 0%Z) d))))
                  (set_session (Some 0%Z) d) w) as S.
    destruct (send _ (set_session (Some 0%Z) d) w) as [[[resp|e] d1] w1]; [|exact I].
    unfold sequence_only, driver_of in S. cbn [fst snd] in S.
    destruct (resp_bool resp); cbn.
    + destruct (resp_session resp); [reflexivity | now right].
    + left. rewrite S. reflexivity.
Qed.

Lemma open_cases (d : CIPDriver) (w : world) :
  _connection_opened d = false ->
  let d0 := match _sock d with None => set_sock (Some SocketObject) d | Some _ => d end in
  let ip := cfg_ip_address (_cfg d) in
  let p := cfg_port (_cfg d) in
  (exists m r, connect_script w = Some m :: r /\
     result_of (open d w) = Raise (CommError "failed to open a connection" (Some (OSError m))) /\
     driver_of (open d w) = d0 /\
     calls (world_of (open d w)) = calls w ++ [SockConnect ip p])
  \/
  ((forall m r, connect_script w <> Some m :: r) /\
   exists d2 w2,
     _connection_opened d2 = true /\ _sock d2 = Some SocketObject /\
     _session d2 = _session d /\
     calls w2 = calls w ++ [SockConnect ip p] /\
     open d w = match _register_session d2 w2 with
                | (Return None, d3, w3) => (Return (Some false), d3, w3)
                | (Return (Some _), d3, w3) => (Return (Some true), d3, w3)
                | (Raise e, d3, w3) =>
                    (Raise (CommError "failed to open a connection" (Some e)), d3, w3)
                end).
Proof.
  intros C. cbv zeta.
  unfold open. set (reg := _register_session).
  unfold bind, try_except, get_self, update, when, ret. rewrite C.
  unfold sock_connect, urandom4.
  assert (L : forall d2 w2,
    (let (p, w') :=
       let (p, w') := reg d2 w2 in
       let (o, d') := p in
       match o with
       | Return a =>
           match a with
           | Some _ => fun (d0 : CIPDriver) (w0 : world) => (Return (Some true), d0, w0)
           | None => fun (d0 : CIPDriver) (w0 : world) => (Return (Some false), d0, w0)
           end d' w'
       | Raise e => (Raise e, d', w')
       end in
     let (o, d') := p in
     match o with
     | Return a => (Return a, d', w')
     | Raise e => raise (CommError "failed to open a connection" (Some e)) d' w'
     end) =
    match reg d2 w2 with
    | (Return None, d3, w3) => (Return (Some false), d3, w3)
    | (Return (Some _), d3, w3) => (Return (Some true), d3, w3)
    | (Raise e, d3, w3) =>
        (Raise (CommError "failed to open a connection" (Some e)), d3, w3)
    end).
  { intros d2 w2. now destruct (reg d2 w2) as [[[[s|]|e] d3] w3]. }
  destruct (_sock d) as [[]|] eqn:S; cbn [_sock set_sock].
  - rewrite S. destruct (connect_script w) as [|[m|] r] eqn:K.
    + right. split; [intros m r; discriminate|].
      destruct (urandom_script w) as [|b1 [|b2 u]]; cbn [fst snd];
        eexists; eexists; (split; [|split; [|split; [|split; [|apply L]]]]);
        solve [reflexivity | exact S].
    + left. exists m, r. repeat split; reflexivity.
    + right. split; [intros m r'; discriminate|].
      destruct (urandom_script w) as [|b1 [|b2 u]]; cbn [fst snd];
        eexists; eexists; (split; [|split; [|split; [|split; [|apply L]]]]);
        solve [reflexivity | exact S].
  - destruct (connect_script w) as [|[m|] r] eqn:K.
    + right. split; [intros m r; discriminate|].
      destruct (urandom_script w) as [|b1 [|b2 u]]; cbn [fst snd];
        eexists; eexists; (split; [|split; [|split; [|split; [|apply L]]]]);
        reflexivity.
    + left. exists m, r. repeat split; reflexivity.
    + right. split; [intros m r'; discriminate|].
      destruct (urandom_script w) as [|b1 [|b2 u]]; cbn [fst snd];
        eexists; eexists; (split; [|split; [|split; [|split; [|apply L]]]]);
        reflexivity.
Qed.

Lemma open_when_open (d : CIPDriver) (w : world) :
  _connection_opened d = true -> open d w = (Return None, d, w).
Proof. intros C. unfold open, bind, get_self. rewrite C. reflexivity. Qed.

Lemma _register_session_keeps_open (d : CIPDriver) (w : world) :
  _connection_opened (driver_of (_register_session d w)) = _connection_opened d /\
  _sock (driver_of (_register_session d w)) = _sock d.
Proof.
  pose proof (session_only__register_session d w) as S. unfold session_only in S.
  rewrite S. split; reflexivity.
Qed.

(** X8: what [open] leaves behind, by the way it ends.  [None]: the driver
    was open already and nothing was done.  [True]: the driver is open
    and holds a session id.  [False]: the driver is open all the same, and
    its session is 0 or [None].  An exception: it is a [CommError] 'failed
    to open a connection' chained to its cause, whatever went wrong. *)
Theorem open_outcome (d : CIPDriver) (w : world) :
  match result_of (open d w) with
  | Return None => connected d = true /\ open d w = (Return None, d, w)
  | Return (Some true) =>
      connected (driver_of (open d w)) = true /\
      exists s, _session (driver_of (open d w)) = Some s
  | Return (Some false) =>
      connected (driver_of (open d w)) = true /\
      (_session (driver_of (open d w)) = Some 0%Z \/ _session (driver_of (open d w)) = None)
  | Raise e => exists cause, e = CommError "failed to open a connection" (Some cause)
  end.
Proof.
  unfold connected.
  destruct (_connection_opened d) eqn:C.
  - rewrite (open_when_open d w C). cbn. now split.
  - destruct (open_cases d w C) as [[m [r [K [R [D W]]]]]|[K [d2 [w2 [O [S [E [W R]]]]]]]];
      cbv zeta in *.
    + rewrite R. now eexists.
    + rewrite R.
      pose proof (_register_session_result d2 w2) as Q.
      pose proof (_register_session_keeps_open d2 w2) as [P _]. rewrite O in P.
      destruct (_register_session d2 w2) as [[[[s|]|e] d3] w3];
        unfold result_of, driver_of in *; cbn [fst snd] in *.
      * split; [exact P | now exists s].
      * split; [exact P | exact Q].
      * now eexists.
Qed.

(** X9: [open] marks the driver open as soon as the socket is connected,
    before the session is registered: on a driver that was not open,
    [connected] is true afterwards exactly when the [connect] call did not
    fail, whether [open] then returned or raised; and the driver holds a
    socket either way. *)
Theorem open_marks_connected (d : CIPDriver) (w : world) :
  _connection_opened d = false ->
  (connected (driver_of (open d w)) = true <-> forall m r, connect_script w <> Some m :: r) /\
  _sock (driver_of (open d w)) = Some SocketObject.
Proof.
  intros C. unfold connected.
  destruct (open_cases d w C) as [[m [r [K [R [D W]]]]]|[K [d2 [w2 [O [S [E [W R]]]]]]]];
    cbv zeta in *.
  - rewrite D. split.
    + split.
      * intros F. destruct (_sock d); cbn in F; congruence.
      * intros N. now elim (N m r).
    + destruct (_sock d) as [[]|] eqn:S; [exact S | reflexivity].
  - pose proof (_register_session_keeps_open d2 w2) as [P Q]. rewrite O in P. rewrite S in Q.
    rewrite R.
    destruct (_register_session d2 w2) as [[[[s|]|e] d3] w3];
      unfold driver_of in *; cbn [fst snd] in *; (split; [split; [intros _; exact K | intros _; exact P] | exact Q]).
Qed.

(** X10: [open] is done once.  After an [open] that returned, a second
    [open] returns [None] at once, without a call on the socket and
    without a change to the driver. *)
Theorem open_twice (d : CIPDriver) (w : world) (r : option bool) :
  result_of (open d w) = Return r ->
  forall w', open (driver_of (open d w)) w' = (Return None, driver_of (open d w), w').
Proof.
  intros R w'. apply open_when_open.
  destruct (_connection_opened d) eqn:C.
  - rewrite (open_when_open d w C). exact C.
  - destruct (open_cases d w C) as [[m [r' [K [R' [D W]]]]]|[K [d2 [w2 [O [S [E [W R']]]]]]]];
      cbv zeta in *.
    + rewrite R' in R. discriminate R.
    + pose proof (_register_session_keeps_open d2 w2) as [P _]. rewrite O in P.
      rewrite R'.
      destruct (_register_session d2 w2) as [[[[s|]|e] d3] w3];
        unfold driver_of in *; cbn [fst snd] in *; exact P.
Qed.

(** X11: a driver that already holds a session id does not register
    again.  On a driver that is not open and whose session is not 0,
    [open] only connects the socket: it returns [True], keeps the session
    and sends no frame. *)
Theorem open_with_known_session (d : CIPDriver) (w : world) (s : Z) :
  _connection_opened d = false ->
  _session d = Some s -> s <> 0%Z ->
  (forall m r, connect_script w <> Some m :: r) ->
  result_of (open d w) = Return (Some true) /\
  _session (driver_of (open d w)) = Some s /\
  calls (world_of (open d w))
  = calls w ++ [SockConnect (cfg_ip_address (_cfg d)) (cfg_port (_cfg d))].
Proof.
  intros C E N K.
  destruct (open_cases d w C) as [[m [r [K' _]]]|[_ [d2 [w2 [O [S [E' [W R]]]]]]]];
    cbv zeta in *.
  - now elim (K m r).
  - assert (G : _register_session d2 w2 = (Return (Some s), d2, w2)).
    { unfold _register_session, bind, get_self, ret. rewrite E', E.
      destruct (Z.eqb_spec s 0) as [Z|_]; [now elim N | reflexivity]. }
    rewrite R, G. cbn. repeat split; [congruence | exact W].
Qed.

End OpenProperties.

Lemma open_marks_connected_witness :
  (connected (driver_of (open unopened_driver (mkWorld [] [Some "refused"] [] [] [] []))) = true
   <-> forall m r, connect_script (mkWorld [] [Some "refused"] [] [] [] []) <> Some m :: r) /\
  _sock (driver_of (open unopened_driver (mkWorld [] [Some "refused"] [] [] [] [])))
  = Some SocketObject.
Proof. apply (open_marks_connected unopened_driver). reflexivity. Defined.

Lemma open_twice_witness :
  open (driver_of (open unopened_driver
                     (mkWorld [] [] [] [inr [x00; x05; x00; x00; x00]] [] []))) quiet
  = (Return None,
     driver_of (open unopened_driver
                  (mkWorld [] [] [] [inr [x00; x05; x00; x00; x00]] [] [])), quiet).
Proof. apply (open_twice unopened_driver _ (Some true)). reflexivity. Defined.

Lemma open_with_known_session_witness :
  result_of (open (plugged_driver true) quiet) = Return (Some true) /\
  _session (driver_of (open (plugged_driver true) quiet)) = Some 5%Z /\
  calls (world_of (open (plugged_driver true) quiet))
  = calls quiet ++ [SockConnect (cfg_ip_address (_cfg (plugged_driver true)))
                      (cfg_port (_cfg (plugged_driver true)))].
Proof.
  apply (open_with_known_session (plugged_driver true) quiet 5).
  - reflexivity.
  - reflexivity.
  - lia.
  - intros m r. discriminate.
Defined.

(** ** After [close] *)

Section AfterClose.

Context `{Collaborators}.

Lemma close_on_reset (d : CIPDriver) (w : world) :
  close (reset d) w = (Return tt, reset d, w).
Proof. reflexivity. Qed.

Lemma close_resets (d : CIPDriver) (w : world) :
  exists x, driver_of (close d w) = reset x.
Proof. rewrite close_eq. eexists. reflexivity. Qed.

(** X12: [close] may be called again.  After a [close], whether it
    returned or raised, a second [close] returns without a fault, makes no
    call on the socket and leaves the driver as the first one left it. *)
Theorem close_twice (d : CIPDriver) (w w' : world) :
  close (driver_of (close d w)) w' = (Return tt, driver_of (close d w), w').
Proof. destruct (close_resets d w) as [x ->]. apply close_on_reset. Qed.

(** X13: a closed driver refuses connected messages.  After a [close],
    and until the next [open], [generic_message(connected=True)] raises
    the session-not-registered [CommError] of the Forward Open: nothing is
    sent and the driver does not change. *)
Theorem closed_driver_refuses_connected_message (a : message_args) (d : CIPDriver)
    (w w' : world) :
  arg_connected a = true ->
  generic_message a (driver_of (close d w)) w'
  = (Raise guard_fault, driver_of (close d w), w').
Proof.
  intros C. destruct (close_resets d w) as [x ->].
  unfold generic_message, generic_message_over, connection_guard, with_forward_open, when.
  rewrite C. unfold bind at 1 2 3. rewrite _forward_open_eq. reflexivity.
Qed.

End AfterClose.

Lemma closed_driver_refuses_connected_message_witness :
  generic_message (read_identity true) (driver_of (close connected_driver dropping)) quiet
  = (Raise guard_fault, driver_of (close connected_driver dropping), quiet).
Proof.
  apply (closed_driver_refuses_connected_message (read_identity true)). reflexivity.
Defined.

(** ** The context manager *)

Section ContextManager.

Context `{Collaborators}.

Lemma close_raises_CommError (d : CIPDriver) (w : world) (e : exn) :
  result_of (close d w) = Raise e -> exists m, e = CommError m None.
Proof.
  rewrite close_eq. unfold result_of. cbn [fst].
  destruct (fault_of (close_session d w) ++ _); [discriminate|].
  intros [= <-]. now eexists.
Qed.

(** X14: leaving a [with] block.  [__exit__] never raises: it closes the
    driver, which after it is in the state [close] leaves, and returns
    [True] exactly when [close] returned and the body of the block had not
    raised.  So a fault of [close] is swallowed and reported as [False],
    and an exception of the body is never suppressed. *)
Theorem exit_never_raises (exc_type : bool) (d : CIPDriver) (w : world) :
  __exit__ exc_type d w =
  (Return (match result_of (close d w) with
           | Return _ => negb exc_type
           | Raise _ => false
           end),
   driver_of (close d w), world_of (close d w)).
Proof.
  pose proof (close_raises_CommError d w) as K.
  unfold __exit__, except_CommError, bind, try_except, ret.
  destruct (close d w) as [[[[]|e] d1] w1]; unfold result_of, driver_of, world_of in *;
    cbn [fst snd] in *.
  - now destruct exc_type.
  - destruct (K e eq_refl) as [m ->]. reflexivity.
Qed.

(** Entering a [with] block is [open] with its result dropped: the block
    runs whenever [open] returned, also when it returned [False]. *)
Lemma enter_is_open (d : CIPDriver) (w : world) :
  __enter__ d w =
  (match result_of (open d w) with
   | Return _ => Return tt
   | Raise e => Raise e
   end, driver_of (open d w), world_of (open d w)).
Proof.
  unfold __enter__, bind, ret. now destruct (open d w) as [[[b|e] d1] w1].
Qed.

End ContextManager.

(** ** Unconnected services *)

Section UnconnectedServices.

Context `{Collaborators}.

Lemma sequence_only_generic_message_unconnected (a : message_args) :
  arg_connected a = false -> keeps sequence_only (generic_message a).
Proof.
  intros U d w. unfold generic_message. rewrite unconnected_message_over by exact U.
  apply sequence_only_generic_message_request.
Qed.

(** X15: [get_module_info] needs no connection and has one way to fail.
    Whatever the state of the driver, the call opens no connection (only
    the sequence counter of the driver may move), and every exception that
    leaves it is a [ResponseError] 'error getting module info' chained to
    its cause: a transport fault, an encoder's exception, or the
    [ResponseError] raised for a result that is not valid. *)
Theorem get_module_info_outcome (slot : Z) (d : CIPDriver) (w : world) :
  sequence_only d w (driver_of (get_module_info slot d w))
    (world_of (get_module_info slot d w)) /\
  (forall e, result_of (get_module_info slot d w) = Raise e ->
     exists cause, e = ResponseError "error getting module info" (Some cause)).
Proof.
  split.
  - revert d w. change (keeps sequence_only (get_module_info slot)).
    pose proof (fun a => sequence_only_generic_message_unconnected a).
    unfold get_module_info. framing sequence_only_refl sequence_only_trans.
  - intros e. unfold get_module_info, try_except, raise.
    match goal with
    | |- context [match ?m d w with _ => _ end] => destruct (m d w) as [[[v|e'] d1] w1]
    end; unfold result_of; cbn [fst].
    + discriminate.
    + intros [= <-]. now eexists.
Qed.

(** X16: how [_forward_close] ends.  With the stored session 0 it raises
    before anything is sent.  Otherwise, when it returns [True] the
    connection flag is cleared and nothing else but the sequence counter
    moved; when it returns [False] or raises, only the sequence counter
    may have moved, so the driver still counts itself connected. *)
Theorem forward_close_outcome (d : CIPDriver) (w : world) :
  (_session d = Some 0%Z ->
   _forward_close d w = (Raise (CommError session_needed_for_close None), d, w)) /\
  (result_of (_forward_close d w) = Return true ->
   driver_of (_forward_close d w)
   = set_target_is_connected false
       (set_sequence (_sequence (driver_of (_forward_close d w))) d)) /\
  (result_of (_forward_close d w) <> Return true ->
   sequence_only d w (driver_of (_forward_close d w)) (world_of (_forward_close d w))).
Proof.
  split.
  { intros Z. unfold _forward_close, bind, get_self. rewrite Z. reflexivity. }
  unfold _forward_close, bind, get_self, lift, update, ret.
  destruct (match _session d with Some 0%Z => true | _ => false end).
  { split; [intros F; discriminate F | intros _; apply sequence_only_refl]. }
  destruct (PADDED_EPATH_encode _ true true) as [rp|e].
  2: { split; [intros F; discriminate F | intros _; apply sequence_only_refl]. }
  match goal with
  | |- context [generic_message ?a d w] =>
      pose proof (sequence_only_generic_message_unconnected a eq_refl d w) as S;
      destruct (generic_message a d w) as [[[t|e] d1] w1]
  end; unfold driver_of, world_of, result_of, sequence_only in *; cbn [fst snd] in *.
  2: { split; [intros F; discriminate F | intros _; exact S]. }
  destruct (Tag_bool t); cbn [fst snd].
  - split; [intros _ | intros N; now elim N].
    rewrite S at 1. reflexivity.
  - split; [intros F; discriminate F | intros _; exact S].
Qed.

End UnconnectedServices.

(** ** The class method [list_identity] *)

Lemma nothing_closed_refl (d : CIPDriver) (w : world) : nothing_closed d w d w.
Proof. reflexivity. Qed.

Lemma nothing_closed_trans (d1 : CIPDriver) (w1 : world) (d2 : CIPDriver) (w2 : world)
    (d3 : CIPDriver) (w3 : world) :
  nothing_closed d1 w1 d2 w2 -> nothing_closed d2 w2 d3 w3 -> nothing_closed d1 w1 d3 w3.
Proof. unfold nothing_closed. congruence. Qed.

Lemma nothing_closed_send (message : bytes) : keeps nothing_closed (sock_send message).
Proof.
  intros d w. unfold nothing_closed, sock_send, world_of. destruct (_sock d); [|reflexivity].
  destruct (send_script w) as [|[m|] r]; cbn [snd calls record];
    now apply filter_is_close_snoc.
Qed.

Lemma nothing_closed_receive : keeps nothing_closed sock_receive.
Proof.
  intros d w. unfold nothing_closed, sock_receive, world_of. destruct (_sock d); [|reflexivity].
  destruct (receive_script w) as [|[m|b] r]; cbn [snd calls record];
    now apply filter_is_close_snoc.
Qed.

Lemma nothing_closed_connect (ip : string) (p : Z) : keeps nothing_closed (sock_connect ip p).
Proof.
  intros d w. unfold nothing_closed, sock_connect, world_of. destruct (_sock d); [|reflexivity].
  destruct (connect_script w) as [|[m|] r]; cbn [snd calls record];
    now apply filter_is_close_snoc.
Qed.

Lemma nothing_closed_urandom4 : keeps nothing_closed urandom4.
Proof.
  intros d w. unfold nothing_closed, urandom4, world_of.
  destruct (urandom_script w); reflexivity.
Qed.

Section ListIdentity.

Context `{Collaborators}.

Lemma nothing_closed_open : keeps nothing_closed open.
Proof.
  apply keeps_open.
  - apply nothing_closed_refl.
  - apply nothing_closed_trans.
  - intros f _ d w. reflexivity.
  - apply nothing_closed_send.
  - apply nothing_closed_receive.
  - intros d w. reflexivity.
  - apply nothing_closed_connect.
  - apply nothing_closed_urandom4.
Qed.

Lemma nothing_closed__list_identity : keeps nothing_closed _list_identity.
Proof.
  apply keeps__list_identity.
  - apply nothing_closed_refl.
  - apply nothing_closed_trans.
  - intros f _ d w. reflexivity.
  - apply nothing_closed_send.
  - apply nothing_closed_receive.
Qed.

Lemma sequence_only__list_identity : keeps sequence_only _list_identity.
Proof.
  pose proof sequence_only_send.
  unfold _list_identity. framing sequence_only_refl sequence_only_trans.
Qed.

Lemma open_holds_socket (d : CIPDriver) (w : world) :
  _connection_opened d = false -> _sock (driver_of (open d w)) = Some SocketObject.
Proof.
  intros C.
  destruct (open_cases d w C) as [[m [r [K [R [D W]]]]]|[K [d2 [w2 [O [S [E [W R]]]]]]]];
    cbv zeta in *.
  - rewrite D. destruct (_sock d) as [[]|] eqn:S; [exact S | reflexivity].
  - pose proof (_register_session_keeps_open d2 w2) as [_ Q]. rewrite S in Q. rewrite R.
    destruct (_register_session d2 w2) as [[[[s|]|e] d3] w3];
      unfold driver_of in *; cbn [fst snd] in *; exact Q.
Qed.

Lemma close_closes_socket (d : CIPDriver) (w : world) :
  _sock d <> None ->
  filter is_close (calls (world_of (close d w))) = filter is_close (calls w) ++ [SockClose].
Proof.
  intros S. rewrite close_eq. unfold world_of at 1. cbn [snd].
  destruct (close_session_leaves_socket d w) as [K F].
  rewrite close_socket_closes by (rewrite K; exact S).
  rewrite filter_app, F. reflexivity.
Qed.

(** X17: the class method [list_identity] and its socket.  A path that
    does not parse ends the call before any socket exists.  Otherwise the
    method opens a driver of its own and asks for the identity; if either
    step raises, the exception leaves the method and the socket is never
    closed; if both return, whatever [open] returned, the socket is closed
    exactly once, and the method returns the identity or raises the
    [CommError] of [close]. *)
Theorem list_identity_and_the_socket (path : string) (w : world) :
  match __init__ path true None None with
  | Raise e => CIPDriver_list_identity path w = (Raise e, w)
  | Return plc =>
      match result_of ((open ;; _list_identity) plc w) with
      | Raise e =>
          fst (CIPDriver_list_identity path w) = Raise e /\
          filter is_close (calls (snd (CIPDriver_list_identity path w)))
          = filter is_close (calls w)
      | Return found =>
          filter is_close (calls (snd (CIPDriver_list_identity path w)))
          = filter is_close (calls w) ++ [SockClose] /\
          (fst (CIPDriver_list_identity path w) = Return found \/
           exists m, fst (CIPDriver_list_identity path w) = Raise (CommError m None))
      end
  end.
Proof.
  unfold CIPDriver_list_identity.
  destruct (__init__ path true None None) as [plc|e] eqn:I; [|reflexivity].
  assert (C : _connection_opened plc = false).
  { unfold __init__, obind in I.
    destruct (parse_connection_path ip_address path) as [[ip p]|e]; [|discriminate I].
    injection I as <-. reflexivity. }
  pose proof (nothing_closed_open plc w) as N1.
  pose proof (open_holds_socket plc w C) as S1.
  unfold bind.
  destruct (open plc w) as [[[b|e] d1] w1];
    unfold result_of, driver_of, world_of, nothing_closed in *; cbn [fst snd] in *.
  2: { split; [reflexivity | exact N1]. }
  pose proof (nothing_closed__list_identity d1 w1) as N2.
  pose proof (sequence_only__list_identity d1 w1) as S2.
  destruct (_list_identity d1 w1) as [[[found|e] d2] w2];
    unfold result_of, driver_of, world_of, nothing_closed, sequence_only in *;
    cbn [fst snd] in *.
  2: { split; [reflexivity | congruence]. }
  assert (S : _sock d2 <> None) by (rewrite S2; cbn; rewrite S1; discriminate).
  pose proof (close_closes_socket d2 w2 S) as K.
  pose proof (close_raises_CommError d2 w2) as E.
  destruct (close d2 w2) as [[[[]|e] d3] w3];
    unfold result_of, driver_of, world_of in *; cbn [fst snd ret] in *.
  - split; [congruence | now left].
  - split; [congruence|]. right. destruct (E e eq_refl) as [m ->]. now exists m.
Qed.

End ListIdentity.

(** ** One exchange on the wire *)

Section OnTheWire.

Context `{Collaborators}.

(** X18: [send] is at most one frame out and one reply in.  A request
    that carries an error is answered without a call on the socket and
    without a change to the driver.  Otherwise the calls [send] adds to
    the socket are none (no socket, or the frame could not be built), one
    [send], or one [send] followed by one [receive]; and a request that
    expects no response is never followed by a [receive]. *)
Theorem send_is_one_exchange (request : RequestPacket) (d : CIPDriver) (w : world) :
  (truthy (req_error request) = true ->
   send request d w = (Return (response_class request None), d, w)) /\
  (calls (world_of (send request d w)) = calls w \/
   exists message,
     calls (world_of (send request d w)) = calls w ++ [SockSend message] \/
     (no_response request = false /\
      calls (world_of (send request d w)) = calls w ++ [SockSend message; SockReceive])).
Proof.
  split.
  { intros E. unfold send, bind, ret. rewrite E. reflexivity. }
  unfold send, bind, ret, build.
  destruct (truthy (req_error request)); cbn [negb]; [left; reflexivity|].
  destruct (build_request request (_target_cid d) (_session d) (cfg_context (_cfg d))
              (cfg_option (_cfg d)) (_sequence d)) as [[frame|e] seq'];
    [|left; reflexivity].
  unfold _send, _receive, try_except, raise, sock_send, sock_receive, world_of, record.
  cbn [_sock set_sequence].
  destruct (_sock d) eqn:S; [|left; reflexivity].
  right. exists frame.
  destruct (send_script w) as [|[m|] r]; cbn; rewrite ?S; cbn;
    try (left; reflexivity);
    (destruct (no_response request) eqn:N; [left; reflexivity|]);
    right; (split; [reflexivity|]);
    cbn; rewrite ?S; cbn;
    destruct (receive_script w) as [|[m'|b] r']; cbn;
    rewrite <- app_assoc; reflexivity.
Qed.

End OnTheWire.

(** ** The constructor *)

Section Constructor.

Context `{Collaborators}.

Lemma parsed_path_is_sound (path ip : string) (p : list PortSegment) :
  parse_connection_path ip_address path = Return (ip, p) ->
  ip_address ip = true /\ p <> [] /\ prefixb ip (replace "\" "/" path) = true.
Proof.
  intros P.
  destruct (split "/" (replace "\" "/" path)) as [|ip0 segments] eqn:S;
    [now elim (split_not_nil "/" (replace "\" "/" path))|].
  rewrite (parse_connection_path_eq ip_address path ip0 segments S) in P.
  pose proof (split_head_prefix _ _ _ _ S) as Q.
  destruct (ip_address ip0) eqn:V; [|discriminate P].
  destruct segments as [|a [|b r]].
  - injection P as <- <-. repeat split; [exact V | discriminate | exact Q].
  - injection P as <- <-. repeat split; [exact V | discriminate | exact Q].
  - destruct (Nat.even (List.length (a :: b :: r))); [|discriminate P].
    injection P as <- <-. repeat split; [exact V | discriminate | exact Q].
Qed.

(** X19: what the constructor guarantees.  A driver that was constructed
    holds an address the address check accepted, which is the leading
    token of the path, and a route of at least one segment; it is neither
    open nor connected, holds the socket and the session it was given, and
    its frame-size preference is the [large_packets] argument.  A
    constructor that fails raises the [RequestError] of the parser, text
    and cause. *)
Theorem constructor_guarantees (path : string) (large_packets : bool)
    (socket : option Socket) (session : option Z) :
  match __init__ path large_packets socket session with
  | Return d =>
      ip_address (cfg_ip_address (_cfg d)) = true /\
      prefixb (cfg_ip_address (_cfg d)) (replace "\" "/" path) = true /\
      cfg_cip_path (_cfg d) <> [] /\
      parse_connection_path ip_address path
      = Return (cfg_ip_address (_cfg d), cfg_cip_path (_cfg d)) /\
      connected d = false /\ _target_is_connected d = false /\
      _sock d = socket /\ _session d = session /\
      extended d = large_packets /\
      connection_size d = (if large_packets then 4000 else 500)%Z
  | Raise e =>
      parse_connection_path ip_address path = Raise e /\
      exists cause,
        e = RequestError ("Failed to parse connection path: " ++ replace "\" "/" path)
              (Some cause)
  end.
Proof.
  unfold __init__, obind.
  destruct (parse_connection_path ip_address path) as [[ip p]|e] eqn:P.
  - destruct (parsed_path_is_sound path ip p P) as [V [N Q]].
    cbn. repeat split; assumption.
  - split; [reflexivity|].
    unfold parse_connection_path in P.
    destruct (parse_body ip_address (replace "\" "/" path)) as [r|err]; [discriminate P|].
    injection P as <-. now eexists.
Qed.

End Constructor.

(** ** Discovery *)

Section Discovery.

Context `{Collaborators}.

Lemma receive_loop_collects (context : bytes) (request : RequestPacket)
    (incoming : list (string + bytes)) : forall log devices,
  receive_loop context request incoming log devices =
  (devices ++ map (fun resp => resp_identity (response_class request (Some resp)))
                (filter (answers context request) (heard incoming)),
   log ++ repeat (UdpRecv 4096) (S (List.length (heard incoming))),
   skipn (S (List.length (heard incoming))) incoming).
Proof.
  induction incoming as [|[m|resp] rest IH]; intros log devices.
  - cbn. now rewrite app_nil_r.
  - cbn. now rewrite app_nil_r.
  - cbn [receive_loop heard filter List.length]. rewrite IH.
    destruct (answers context request resp); cbn [map repeat skipn app];
      rewrite <- ?app_assoc; reflexivity.
Qed.

Lemma _broadcast_discover_healthy (ip : option string) (message context : bytes)
    (request : RequestPacket) (u : udp) :
  healthy u ->
  _broadcast_discover ip message context request u =
  (Return (found_on context request u),
   mkUdp (udp_calls u ++ bind_call ip ++ [UdpSendto message "255.255.255.255" 44818]
            ++ repeat (UdpRecv 4096) (S (List.length (heard (datagrams u)))))
     None None None (skipn (S (List.length (heard (datagrams u)))) (datagrams u))).
Proof.
  intros (S & B & T). unfold _broadcast_discover, found_on, bind_call. rewrite S, B, T.
  replace (if truthy ip then None else None) with (@None string) by now destruct (truthy ip).
  rewrite receive_loop_collects. cbn [app].
  destruct ip as [a|]; [destruct (truthy (Some a))|]; cbn [app];
    rewrite <- ?app_assoc; reflexivity.
Qed.

(** X20: what one probe collects.  On a socket that could be created,
    bound and sent on, [_broadcast_discover] never raises: it returns, in
    the order of arrival, the identities of the replies that are valid and
    echo the context, among those received before the first [recv] that
    fails; a reply that is not an answer is skipped, and whatever would
    have arrived after the failing [recv] is never read.  The socket is
    bound only for an address that is not empty. *)
Theorem broadcast_discover_collects (ip : option string) (message context : bytes)
    (request : RequestPacket) (u : udp) :
  healthy u ->
  fst (_broadcast_discover ip message context request u)
  = Return (map (fun resp => resp_identity (response_class request (Some resp)))
              (filter (answers context request) (heard (datagrams u)))) /\
  udp_calls (snd (_broadcast_discover ip message context request u))
  = udp_calls u ++ bind_call ip ++ [UdpSendto message "255.255.255.255" 44818]
      ++ repeat (UdpRecv 4096) (S (List.length (heard (datagrams u)))) /\
  datagrams (snd (_broadcast_discover ip message context request u))
  = skipn (S (List.length (heard (datagrams u)))) (datagrams u).
Proof.
  intros Hu. rewrite (_broadcast_discover_healthy ip message context request u Hu).
  repeat split.
Qed.

Lemma healthy_silent : healthy silent.
Proof. repeat split. Qed.

Lemma probe_healthy (ip : option string) (message context : bytes) (request : RequestPacket)
    (n : network) :
  Forall healthy (upcoming n) ->
  probe ip message context request n =
  (Return (found_on context request (nth 0 (upcoming n) silent)),
   mkNetwork (tl (upcoming n))
     (finished n ++
      [mkUdp (udp_calls (nth 0 (upcoming n) silent) ++ bind_call ip
                ++ [UdpSendto message "255.255.255.255" 44818]
                ++ repeat (UdpRecv 4096)
                     (S (List.length (heard (datagrams (nth 0 (upcoming n) silent))))))
         None None None
         (skipn (S (List.length (heard (datagrams (nth 0 (upcoming n) silent)))))
            (datagrams (nth 0 (upcoming n) silent)))])).
Proof.
  intros F. unfold probe.
  destruct (upcoming n) as [|u rest]; cbn [nth tl].
  - now rewrite (_broadcast_discover_healthy ip message context request silent healthy_silent).
  - now rewrite (_broadcast_discover_healthy ip message context request u)
      by (now inversion F).
Qed.

Lemma sockets_of_next (n n' : network) (count : nat) :
  upcoming n' = tl (upcoming n) ->
  sockets_of n (S count) = nth 0 (upcoming n) silent :: sockets_of n' count.
Proof.
  intros E. unfold sockets_of. rewrite E. cbn [seq map]. f_equal.
  rewrite <- seq_shift, map_map. apply map_ext. intros k.
  destruct (upcoming n) as [|u rest]; [now destruct k | reflexivity].
Qed.

Lemma nth_next (n n' : network) (k : nat) :
  upcoming n' = tl (upcoming n) ->
  nth (S k) (upcoming n) silent = nth k (upcoming n') silent.
Proof.
  intros E. rewrite E. destruct (upcoming n) as [|u rest]; [now destruct k | reflexivity].
Qed.

Lemma probe_each_collects (message context : bytes) (request : RequestPacket)
    (ip_addrs : list string) : forall devices n,
  Forall healthy (upcoming n) ->
  exists n',
    probe_each ip_addrs message context request devices n =
    (Return (devices ++ flat_map (found_on context request)
                          (sockets_of n (List.length ip_addrs))), n') /\
    Forall healthy (upcoming n') /\
    (forall k, nth k (upcoming n') silent = nth (List.length ip_addrs + k) (upcoming n) silent) /\
    map udp_calls (finished n') =
    map udp_calls (finished n) ++
    map (fun '(ip, u) =>
           udp_calls u ++ bind_call (Some ip) ++ [UdpSendto message "255.255.255.255" 44818]
             ++ repeat (UdpRecv 4096) (S (List.length (heard (datagrams u)))))
      (combine ip_addrs (sockets_of n (List.length ip_addrs))).
Proof.
  induction ip_addrs as [|ip rest IH]; intros devices n F.
  - exists n. cbn. rewrite !app_nil_r.
    split; [reflexivity|]. split; [exact F|]. split; [|reflexivity].
    intros k. reflexivity.
  - cbn [probe_each]. rewrite (probe_healthy (Some ip) message context request n F).
    match goal with
    | |- context [probe_each rest message context request _ ?m] => set (n1 := m)
    end.
    assert (F1 : Forall healthy (upcoming n1)).
    { cbn. destruct (upcoming n); [constructor | now inversion F]. }
    destruct (IH (devices ++ found_on context request (nth 0 (upcoming n) silent)) n1 F1)
      as (n' & E & F' & K & L).
    exists n'. rewrite E. cbn [List.length].
    rewrite (sockets_of_next n n1 (List.length rest) eq_refl).
    split; [|split; [exact F'|split]].
    + cbn [flat_map]. now rewrite <- app_assoc.
    + intros k. rewrite K. cbn [Nat.add].
      symmetry. apply (nth_next n n1). reflexivity.
    + rewrite L. cbn [finished n1 combine map udp_calls].
      rewrite map_app, <- app_assoc. reflexivity.
Qed.

(** X21: what [discover] probes.  When every socket can be created,
    bound and sent on, [discover] probes once on each address of the
    host, in order, on a socket of its own that it binds to that address
    (unless the address is empty), and returns what these probes found;
    exactly when they found nothing, whether or not the host has an
    address, it probes once more, on a socket that it does not bind, and
    returns what that probe found.  Every probe broadcasts the one
    message and listens until the first [recv] that fails.  With no reply
    at all the result is the empty list. *)
Theorem discover_probes (ip_addrs : list string) (message : bytes) (n : network) :
  ip_address "0.0.0.0" = true ->
  fst (build_request list_identity PyNone (Some 0%Z) (list_byte_of_string "_pycomm_") 0
         (cycle_of [])) = Return message ->
  Forall healthy (upcoming n) ->
  let context := list_byte_of_string "_pycomm_" in
  let count := List.length ip_addrs in
  let bound := flat_map (found_on context list_identity) (sockets_of n count) in
  let last_socket := nth count (upcoming n) silent in
  let unbound := found_on context list_identity last_socket in
  let broadcast (u : udp) :=
    UdpSendto message "255.255.255.255" 44818
    :: repeat (UdpRecv 4096) (S (List.length (heard (datagrams u)))) in
  fst (discover ip_addrs n) = Return (match bound with [] => unbound | _ => bound end) /\
  map udp_calls (finished (snd (discover ip_addrs n)))
  = map udp_calls (finished n)
    ++ map (fun '(ip, u) =>
              udp_calls u ++ (if truthy (Some ip) then [UdpBind ip 0] else []) ++ broadcast u)
         (combine ip_addrs (sockets_of n count))
    ++ match bound with
       | [] => [udp_calls last_socket ++ broadcast last_socket]
       | _ => []
       end /\
  List.length (finished (snd (discover ip_addrs n)))
  = (List.length (finished n) + count + match bound with [] => 1 | _ => 0 end)%nat /\
  ((forall u, In u (upcoming n) -> heard (datagrams u) = []) ->
   fst (discover ip_addrs n) = Return []).
Proof.
  intros V B F. cbv zeta.
  assert (D : fst (discover ip_addrs n) =
              Return (match flat_map (found_on (list_byte_of_string "_pycomm_") list_identity)
                              (sockets_of n (List.length ip_addrs)) with
                      | [] => found_on (list_byte_of_string "_pycomm_") list_identity
                                (nth (List.length ip_addrs) (upcoming n) silent)
                      | x :: l => x :: l
                      end) /\
              map udp_calls (finished (snd (discover ip_addrs n)))
              = map udp_calls (finished n)
                ++ map (fun '(ip, u) =>
                          udp_calls u ++ bind_call (Some ip)
                            ++ [UdpSendto message "255.255.255.255" 44818]
                            ++ repeat (UdpRecv 4096) (S (List.length (heard (datagrams u)))))
                     (combine ip_addrs (sockets_of n (List.length ip_addrs)))
                ++ match flat_map (found_on (list_byte_of_string "_pycomm_") list_identity)
                           (sockets_of n (List.length ip_addrs)) with
                   | [] =>
                       [udp_calls (nth (List.length ip_addrs) (upcoming n) silent)
                          ++ UdpSendto message "255.255.255.255" 44818
                             :: repeat (UdpRecv 4096)
                                  (S (List.length
                                        (heard (datagrams (nth (List.length ip_addrs)
                                                             (upcoming n) silent)))))]
                   | _ => []
                   end).
  { unfold discover, __init__.
    rewrite (parse_connection_path_eq ip_address "0.0.0.0" "0.0.0.0" [] eq_refl), V.
    cbn [obind set_session _cfg cfg_context cfg_option _session]. rewrite B.
    destruct (probe_each_collects message (list_byte_of_string "_pycomm_") list_identity
                ip_addrs [] n F) as (n' & E & F' & K & L).
    rewrite E. cbn [app].
    destruct (flat_map _ (sockets_of n (List.length ip_addrs))) as [|x l].
    - rewrite (probe_healthy None message (list_byte_of_string "_pycomm_") list_identity
                 n' F').
      cbn [fst snd finished app]. rewrite K, Nat.add_0_r.
      split; [reflexivity|]. rewrite map_app, L. cbn [map udp_calls bind_call app].
      rewrite <- app_assoc. reflexivity.
    - cbn [fst snd]. split; [reflexivity|]. rewrite L, app_nil_r. reflexivity. }
  destruct D as [D1 D2].
  split; [rewrite D1; now destruct (flat_map _ (sockets_of n (List.length ip_addrs)))|].
  assert (D3 : map udp_calls (finished (snd (discover ip_addrs n)))
               = map udp_calls (finished n)
                 ++ map (fun '(ip, u) =>
                           udp_calls u ++ (if truthy (Some ip) then [UdpBind ip 0] else [])
                             ++ UdpSendto message "255.255.255.255" 44818
                                :: repeat (UdpRecv 4096) (S (List.length (heard (datagrams u)))))
                      (combine ip_addrs (sockets_of n (List.length ip_addrs)))
                 ++ match flat_map (found_on (list_byte_of_string "_pycomm_") list_identity)
                            (sockets_of n (List.length ip_addrs)) with
                    | [] =>
                        [udp_calls (nth (List.length ip_addrs) (upcoming n) silent)
                           ++ UdpSendto message "255.255.255.255" 44818
                              :: repeat (UdpRecv 4096)
                                   (S (List.length
                                         (heard (datagrams (nth (List.length ip_addrs)
                                                              (upcoming n) silent)))))]
                    | _ => []
                    end).
  { rewrite D2. reflexivity. }
  split; [exact D3|]. split.
  { rewrite <- (length_map udp_calls (finished (snd (discover ip_addrs n)))), D3.
    rewrite !length_app, !length_map, length_combine.
    unfold sockets_of. rewrite length_map, length_seq, Nat.min_id.
    destruct (flat_map _ _); cbn [List.length]; lia. }
  intros Q. rewrite D1.
  assert (Z : forall u, (In u (upcoming n) \/ u = silent) ->
                        found_on (list_byte_of_string "_pycomm_") list_identity u = []).
  { intros u [I| ->]; unfold found_on; [rewrite (Q u I)|]; reflexivity. }
  assert (N : forall k, found_on (list_byte_of_string "_pycomm_") list_identity
                          (nth k (upcoming n) silent) = []).
  { intros k. apply Z. destruct (nth_in_or_default k (upcoming n) silent); auto. }
  assert (A : flat_map (found_on (list_byte_of_string "_pycomm_") list_identity)
                (sockets_of n (List.length ip_addrs)) = []).
  { unfold sockets_of. induction (seq 0 (List.length ip_addrs)) as [|k l IH];
      [reflexivity|]. cbn [map flat_map]. now rewrite N, IH. }
  rewrite A, N. reflexivity.
Qed.

End Discovery.

Lemma broadcast_discover_collects_witness :
  fst (_broadcast_discover (Some "192.168.1.5") [x63] (list_byte_of_string "_pycomm_")
         list_identity one_answer)
  = Return (map (fun resp => resp_identity (response_class list_identity (Some resp)))
              (filter (answers (list_byte_of_string "_pycomm_") list_identity)
                 (heard (datagrams one_answer)))) /\
  udp_calls (snd (_broadcast_discover (Some "192.168.1.5") [x63]
                    (list_byte_of_string "_pycomm_") list_identity one_answer))
  = udp_calls one_answer ++ bind_call (Some "192.168.1.5")
      ++ [UdpSendto [x63] "255.255.255.255" 44818]
      ++ repeat (UdpRecv 4096) (S (List.length (heard (datagrams one_answer)))) /\
  datagrams (snd (_broadcast_discover (Some "192.168.1.5") [x63]
                    (list_byte_of_string "_pycomm_") list_identity one_answer))
  = skipn (S (List.length (heard (datagrams one_answer)))) (datagrams one_answer).
Proof.
  apply (broadcast_discover_collects (Some "192.168.1.5") [x63]
           (list_byte_of_string "_pycomm_") list_identity one_answer).
  repeat split.
Defined.

(** On the bench: the probe returns the one answer heard before the
    timeout, and leaves the late answer unread. *)
Example one_answer_on_the_bench :
  _broadcast_discover (Some "192.168.1.5") [x63] (list_byte_of_string "_pycomm_")
    list_identity one_answer
  = (Return [PyBytes (repeat x00 11 ++ list_byte_of_string "_pycomm_" ++ [x01])],
     mkUdp [UdpBind "192.168.1.5" 0; UdpSendto [x63] "255.255.255.255" 44818;
            UdpRecv 4096; UdpRecv 4096; UdpRecv 4096]
       None None None [inr (echo (list_byte_of_string "_pycomm_") [x02])]).
Proof. reflexivity. Qed.

Lemma discover_probes_witness :
  let n := mkNetwork [silent; one_answer] [] in
  let context := list_byte_of_string "_pycomm_" in
  let bound := flat_map (found_on context list_identity)
                 (sockets_of n (List.length ["192.168.1.5"])) in
  let unbound := found_on context list_identity
                   (nth (List.length ["192.168.1.5"]) (upcoming n) silent) in
  let last_socket := nth (List.length ["192.168.1.5"]) (upcoming n) silent in
  let broadcast (u : udp) :=
    UdpSendto [x63] "255.255.255.255" 44818
    :: repeat (UdpRecv 4096) (S (List.length (heard (datagrams u)))) in
  fst (discover ["192.168.1.5"] n) = Return (match bound with [] => unbound | _ => bound end) /\
  map udp_calls (finished (snd (discover ["192.168.1.5"] n)))
  = map udp_calls (finished n)
    ++ map (fun '(ip, u) =>
              udp_calls u ++ (if truthy (Some ip) then [UdpBind ip 0] else []) ++ broadcast u)
         (combine ["192.168.1.5"] (sockets_of n (List.length ["192.168.1.5"])))
    ++ match bound with
       | [] => [udp_calls last_socket ++ broadcast last_socket]
       | _ => []
       end /\
  List.length (finished (snd (discover ["192.168.1.5"] n)))
  = (List.length (finished n) + List.length ["192.168.1.5"]
     + match bound with [] => 1 | _ => 0 end)%nat /\
  ((forall u, In u (upcoming n) -> heard (datagrams u) = []) ->
   fst (discover ["192.168.1.5"] n) = Return []).
Proof.
  apply (discover_probes ["192.168.1.5"] [x63] (mkNetwork [silent; one_answer] [])).
  - reflexivity.
  - reflexivity.
  - repeat constructor.
Defined.

(** On the bench: the host has an address, nothing answers the bound
    probe, and the unbound probe finds the device. *)
Example unbound_probe_on_the_bench :
  fst (discover ["192.168.1.5"] (mkNetwork [silent; one_answer] []))
  = Return [PyBytes (repeat x00 11 ++ list_byte_of_string "_pycomm_" ++ [x01])] /\
  map udp_calls (finished (snd (discover ["192.168.1.5"] (mkNetwork [silent; one_answer] []))))
  = [[UdpBind "192.168.1.5" 0; UdpSendto [x63] "255.255.255.255" 44818; UdpRecv 4096];
     [UdpSendto [x63] "255.255.255.255" 44818; UdpRecv 4096; UdpRecv 4096; UdpRecv 4096]].
Proof. split; reflexivity. Qed.

(** ** The arguments of [generic_message] and the end of a session *)

Section Arguments.

Context `{Collaborators}.

(** X22: the route arguments are for unconnected messages only.  A
    connected [generic_message] does not look at [route_path] nor at
    [unconnected_send]: whatever they are, the call does the same, so it
    cannot fail on encoding a route.  For an unconnected message an empty
    sequence of segments is no route, like [False]; and with [True], the
    default, a configured route the encoder refuses ends the call before
    anything is sent. *)
Theorem route_is_for_unconnected_messages (service class_code instance attribute
    request_data : pyvalue) (data_type : option string) (name : string)
    (unconnected_send unconnected_send' : bool) (route_path route_path' : route_spec)
    (d : CIPDriver) (w : world) :
  generic_message
    (mkArgs service class_code instance attribute request_data data_type name true
       unconnected_send route_path) d w
  = generic_message
      (mkArgs service class_code instance attribute request_data data_type name true
         unconnected_send' route_path') d w /\
  generic_message
    (mkArgs service class_code instance attribute request_data data_type name false
       unconnected_send (RouteSegments [])) d w
  = generic_message
      (mkArgs service class_code instance attribute request_data data_type name false
         unconnected_send (RouteBool false)) d w /\
  (forall e,
     PADDED_EPATH_encode (map Port (cfg_cip_path (_cfg d))) true true = Raise e ->
     generic_message
       (mkArgs service class_code instance attribute request_data data_type name false
          unconnected_send (RouteBool true)) d w
     = (Raise e, d, w)).
Proof.
  split; [reflexivity|]. split; [reflexivity|].
  intros e E.
  unfold generic_message, generic_message_over, generic_message_request, when, bind,
    get_self, lift.
  cbn [arg_connected arg_route_path negb ret]. rewrite E. reflexivity.
Qed.

(** X23: how [_un_register_session] ends.  When it returns, the stored
    session is [None], not 0, and nothing else moved but the sequence
    counter; when it raises, the session is the one before, so only
    [close] brings a driver back to session 0. *)
Theorem unregister_outcome (d : CIPDriver) (w : world) :
  match result_of (_un_register_session d w) with
  | Return _ =>
      driver_of (_un_register_session d w)
      = set_session None (set_sequence (_sequence (driver_of (_un_register_session d w))) d)
  | Raise _ =>
      sequence_only d w (driver_of (_un_register_session d w))
        (world_of (_un_register_session d w))
  end.
Proof.
  pose proof (sequence_only_send unregister_session d w) as S.
  unfold _un_register_session, bind, update.
  destruct (send unregister_session d w) as [[[r|e] d1] w1];
    unfold sequence_only, result_of, driver_of, world_of in *; cbn [fst snd] in *.
  - rewrite S at 1. reflexivity.
  - exact S.
Qed.

End Arguments.
